(** * twitter-ui: the video feed screen and its cards

    A shallow embedding of the source files of the repository:

    - the drawer layout ([CustomDrawerContent], [DrawerLayout]) and the home
      screen ([processedFeedItems], [HomeScreen]),
    - [components/VideoFeedItem.tsx] and [components/SimilarVideoThumbnail.tsx].

    JavaScript values read from the JSON fixtures are kept dynamically typed
    ([JsVal]), a fixture entry is a finite map from property names to values,
    and the component code is written in a small monad that threads the
    component state, records the calls made on the video handle and on the
    console, and propagates promise rejections. *)

From stdpp Require Import base option list strings gmap.

Open Scope string_scope.

(** ** JavaScript values *)

Module Js.

(** The values a JSON fixture can hold, plus [undefined] (the result of
    reading an absent property).  Arrays and nested objects are only ever
    tested for truthiness or compared by identity, so they are represented
    by their address.  Numbers in the fixtures are integers (ids, counters,
    timestamps); JSON has no NaN, so [===] is plain equality. *)
Inductive JsVal : Type :=
| JUndefined
| JNull
| JBool (b : bool)
| JNum (n : Z)
| JStr (s : string)
| JRef (addr : nat).

#[global] Instance JsVal_eq_dec : EqDecision JsVal.
Proof. solve_decision. Defined.

(** ToBoolean *)
Definition truthy (v : JsVal) : bool :=
  match v with
  | JUndefined | JNull => false
  | JBool b => b
  | JNum n => negb (Z.eqb n 0)
  | JStr s => negb (String.eqb s "")
  | JRef _ => true
  end.

(** [a || b] *)
Definition js_or (a b : JsVal) : JsVal := if truthy a then a else b.

(** [a === b] *)
Definition strict_eq (a b : JsVal) : bool := bool_decide (a = b).

(** [typeof v === 'string'] *)
Definition is_string (v : JsVal) : bool :=
  match v with JStr _ => true | _ => false end.

(** A fixture entry: [item.k] is [get item k]. *)
Abbreviation JsObject := (gmap string JsVal).

Definition get (o : JsObject) (k : string) : JsVal := default JUndefined (o !! k).

(** [xs.find(p)] *)
Fixpoint find {A} (p : A -> bool) (xs : list A) : option A :=
  match xs with
  | [] => None
  | x :: rest => if p x then Some x else find p rest
  end.

(** [xs.filter(x => x !== null)] on a list whose entries are a record or
    [null]. *)
Fixpoint filter_not_null {A} (xs : list (option A)) : list A :=
  match xs with
  | [] => []
  | Some x :: rest => x :: filter_not_null rest
  | None :: rest => filter_not_null rest
  end.

End Js.
Import Js.

(** ** View-model shapes *)

(** [VideoPlayerData] of VideoFeedItem.tsx.  The fields are declared
    [string] but are filled from [any]-typed fixture entries, so they hold
    whatever the fixture holds. *)
Record VideoPlayerData : Type := mkVideo {
  id : JsVal;
  videoSource : JsVal;
  posterSource : JsVal;
  authorName : JsVal;
  authorHandle : JsVal;
  caption : JsVal
}.

#[global] Instance VideoPlayerData_eq_dec : EqDecision VideoPlayerData.
Proof. solve_decision. Defined.

(** [SimilarVideoData] of SimilarVideoThumbnail.tsx; [thumbnail_url] is
    optional. *)
Record SimilarVideoData : Type := mkSimilar {
  sim_id : string;
  media_url : string;
  thumbnail_url : option string;
  title : string
}.

(** ** The home screen: fixtures to view-model *)

Module HomeScreen.

(** The callback given to [sampleFeedItems.map]. *)
Definition toVideoPlayerData (users : list JsObject) (item : JsObject)
  : option VideoPlayerData :=
  let '(authorName, authorHandle, authorImageUrl) :=
    if is_string (get item "poster_id") then
      match find (fun u => strict_eq (get u "id") (get item "poster_id")) users with
      | Some user => (get user "name", get user "handle", get user "profile_picture")
      | None => (JStr "Unknown Author", JStr "unknownhandle", JStr "")
      end
    else if is_string (get item "authorName") then
      (get item "authorName",
       js_or (get item "authorHandle") (JStr "unknownhandle"),
       js_or (get item "authorImageUrl") (JStr ""))
    else (JStr "Unknown Author", JStr "unknownhandle", JStr "") in
  if strict_eq (get item "media_type") (JStr "video")
     && truthy (js_or (get item "media_url") (get item "mediaUrl"))
     && truthy (get item "contentId")
  then Some {| id := get item "contentId";
               videoSource := js_or (get item "media_url") (get item "mediaUrl");
               posterSource := js_or (get item "thumbnail_url") JUndefined;
               authorName := authorName;
               authorHandle := authorHandle;
               caption := js_or (get item "message") (JStr "No caption") |}
  else None.

Definition processedFeedItems (sampleFeedItems users : list JsObject)
  : list VideoPlayerData :=
  filter_not_null (map (toVideoPlayerData users) sampleFeedItems).

(** *** Active-item tracking *)

(** React state of the screen: [useState<string | null>(null)]. *)
Record State : Type := mkState { activeVideoId : JsVal }.

Definition initialState : State := {| activeVideoId := JNull |}.

(** A [ViewToken] as the list hands it to the callback; [item] is [None]
    when the token carries no item. *)
Record ViewToken : Type := mkToken {
  item : option VideoPlayerData;
  key : JsVal;
  index : option nat;
  isViewable : bool
}.

Definition onViewableItemsChanged (viewableItems : list ViewToken) (st : State)
  : State :=
  match viewableItems with
  | firstViewableItem :: _ =>
      match isViewable firstViewableItem, item firstViewableItem with
      | true, Some it => {| activeVideoId := id it |}
      | _, _ => st
      end
  | [] => st
  end.

(** The token the list builds for row [i] of its [data]
    ([keyExtractor] is [item => item.id]). *)
Definition tokenOf (data : list VideoPlayerData) (i : nat) (viewable : bool)
  : ViewToken :=
  {| item := data !! i;
     key := from_option id JUndefined (data !! i);
     index := Some i;
     isViewable := viewable |}.

Definition fromList (data : list VideoPlayerData) (t : ViewToken) : Prop :=
  exists i viewable, i < length data /\ t = tokenOf data i viewable.

(** One transition of the screen: the list reports a viewability change
    over rows of its data. *)
Inductive step (data : list VideoPlayerData) : State -> State -> Prop :=
| step_viewable (viewableItems : list ViewToken) (st : State) :
    Forall (fromList data) viewableItems ->
    step data st (onViewableItemsChanged viewableItems st).

Definition reachableFrom (data : list VideoPlayerData) : State -> State -> Prop :=
  rtc (step data).

(** *** Rendering *)

(** Props of one [VideoFeedItem]. *)
Record VideoFeedItemProps : Type := mkProps {
  initialVideoData : VideoPlayerData;
  isActive : bool
}.

Definition renderVideoItem (st : State) (it : VideoPlayerData)
  : VideoFeedItemProps :=
  {| initialVideoData := it;
     isActive := strict_eq (id it) (activeVideoId st) |}.

(** What the screen returns: the empty-feed notice, or the list with its
    data and row renderer. *)
Inductive Element : Type :=
| EmptyFeed (emptyFeedText emptyFeedSubText : string)
| FlatList (data : list VideoPlayerData)
           (renderItem : VideoPlayerData -> VideoFeedItemProps).

Definition render (processedFeedItems : list VideoPlayerData) (st : State)
  : Element :=
  if Nat.eqb (length processedFeedItems) 0 then
    EmptyFeed "No videos available at the moment."
      "Please check back later or ensure 'dummy/posts.json' has video entries."
  else FlatList processedFeedItems (renderVideoItem st).

(** The list is virtualised: it mounts the rows of a window
    [first .. first + count - 1] of its data. *)
Definition mountedRows (e : Element) (first count : nat)
  : list VideoFeedItemProps :=
  match e with
  | EmptyFeed _ _ => []
  | FlatList data renderItem => map renderItem (take count (drop first data))
  end.

(** The module-level view-model as a function of everything an evaluation
    of the module could observe: the two bundled fixtures and the rest of
    the ambient state (account fixture, store, clock). *)
Record Environment : Type := mkEnv {
  posts_json : list JsObject;
  users_json : list JsObject;
  authorized_accounts_json : list JsVal;
  store_currentUserId : JsVal;
  clock_now : Z
}.

Definition evalProcessedFeedItems (env : Environment) : list VideoPlayerData :=
  processedFeedItems (posts_json env) (users_json env).

(** The properties of a post and of a user whose value reaches the
    view-model. *)
Definition postKeys : list string :=
  ["poster_id"; "authorName"; "authorHandle"; "media_type"; "media_url";
   "mediaUrl"; "contentId"; "thumbnail_url"; "message"].

Definition userKeys : list string := ["id"; "name"; "handle"].

Definition agreeOn (keys : list string) (o1 o2 : JsObject) : Prop :=
  Forall (fun k => get o1 k = get o2 k) keys.

End HomeScreen.

(** ** One video card: VideoFeedItem.tsx *)

Module VideoFeedItem.

(** The calls the component makes on its [Video] handle. *)
Inductive VideoCmd : Type :=
| playAsync
| pauseAsync
| unloadAsync
| loadAsync (uri : JsVal) (shouldPlay : bool).

(** How the promise returned by a call settles.  A rejection reason is
    kept as the text it converts to. *)
Inductive Settled : Type :=
| Fulfilled
| Rejected (reason : string).

(** The native player, as far as the component can observe it. *)
Definition Player : Type := VideoCmd -> Settled.

Inductive Event : Type :=
| VideoCall (handle : nat) (c : VideoCmd)
| ConsoleLog (args : list string)
| ConsoleError (args : list string)
| UnhandledRejection (reason : string).

(** [videoRef.current] and the four [useState] cells. *)
Record State : Type := mkState {
  videoRef : option nat;
  isPlaying : bool;
  isLoading : bool;
  error : option string;
  currentVideo : VideoPlayerData
}.

Inductive Completion (A : Type) : Type :=
| Normal (a : A)
| Throw (reason : string).
Arguments Normal {A} a.
Arguments Throw {A} reason.

(** Component code: reads the player, updates the state, appends to the
    trace, and either completes or throws. *)
Definition M (A : Type) : Type :=
  Player -> State -> Completion A * State * list Event.

#[global] Instance M_ret : MRet M := fun A a _ s => (Normal a, s, []).

#[global] Instance M_bind : MBind M := fun A B k m p s =>
  match m p s with
  | (Normal a, s1, t1) =>
      let '(r, s2, t2) := k a p s1 in (r, s2, (t1 ++ t2)%list)
  | (Throw e, s1, t1) => (Throw e, s1, t1)
  end.

Definition read {A} (f : State -> A) : M A := fun _ s => (Normal (f s), s, []).
Definition emit (e : Event) : M unit := fun _ s => (Normal tt, s, [e]).

Definition setIsPlaying (b : bool) : M unit :=
  fun _ s => (Normal tt, mkState (videoRef s) b (isLoading s) (error s) (currentVideo s), []).
Definition setIsLoading (b : bool) : M unit :=
  fun _ s => (Normal tt, mkState (videoRef s) (isPlaying s) b (error s) (currentVideo s), []).
Definition setError (e : option string) : M unit :=
  fun _ s => (Normal tt, mkState (videoRef s) (isPlaying s) (isLoading s) e (currentVideo s), []).
Definition setCurrentVideo (f : VideoPlayerData -> VideoPlayerData) : M unit :=
  fun _ s => (Normal tt, mkState (videoRef s) (isPlaying s) (isLoading s) (error s) (f (currentVideo s)), []).

(** [await handle.c()]: the call is made; a rejection is thrown.  A
    promise chain is followed to the point where it settles, so what runs
    in a [then] is sequenced after the call it waits for. *)
Definition await (handle : nat) (c : VideoCmd) : M unit :=
  fun p s =>
    (match p c with Fulfilled => Normal tt | Rejected e => Throw e end,
     s, [VideoCall handle c]).

(** [try { m } catch (e) { h e }], also [promise.then(..).catch(h)]. *)
Definition catch (m : M unit) (h : string -> M unit) : M unit :=
  fun p s =>
    match m p s with
    | (Normal a, s1, t1) => (Normal a, s1, t1)
    | (Throw e, s1, t1) => let '(r, s2, t2) := h e p s1 in (r, s2, (t1 ++ t2)%list)
    end.

(** A promise chain nobody awaits and nobody catches. *)
Definition detached (m : M unit) : M unit :=
  catch m (fun e => emit (UnhandledRejection e)).

(** Effect on [initialVideoData]. *)
Definition initialDataEffect (initialVideoData : VideoPlayerData) : M unit :=
  setCurrentVideo (fun _ => initialVideoData) ;;
  setIsLoading true ;;
  setIsPlaying false ;;
  ref ← read videoRef;
  match ref with
  | Some h =>
      detached (await h unloadAsync ;;
                ref' ← read videoRef;
                match ref' with
                | Some h' => await h' (loadAsync (videoSource initialVideoData) false)
                | None => mret tt
                end)
  | None => mret tt
  end.

(** Effect on [isActive] (and on the handle). *)
Definition activeEffect (isActive : bool) : M unit :=
  ref ← read videoRef;
  match ref with
  | None => mret tt
  | Some h =>
      if isActive then
        catch (await h playAsync ;; setIsPlaying true)
              (fun e => emit (ConsoleError ["Error playing video on active: "; e]))
      else
        catch (await h pauseAsync ;; setIsPlaying false)
              (fun e => emit (ConsoleError ["Error pausing video on inactive: "; e]))
  end.

Definition handlePlayPause : M unit :=
  ref ← read videoRef;
  match ref with
  | None => mret tt
  | Some h =>
      playing ← read isPlaying;
      if playing : bool then (await h pauseAsync ;; setIsPlaying false : M unit)
      else (await h playAsync ;; setIsPlaying true)
  end.

Definition handleSimilarVideoSelect (isActive : bool) (selectedVideo : SimilarVideoData)
  : M unit :=
  emit (ConsoleLog ["Switching to: " ++ title selectedVideo]) ;;
  setCurrentVideo (fun prev =>
    {| id := JStr (sim_id selectedVideo);
       videoSource := JStr (media_url selectedVideo);
       posterSource := from_option JStr JUndefined (thumbnail_url selectedVideo);
       authorName := authorName prev;
       authorHandle := authorHandle prev;
       caption := JStr (title selectedVideo) |}) ;;
  setIsLoading true ;;
  ref ← read videoRef;
  match ref with
  | Some h =>
      playing ← read isPlaying;
      await h unloadAsync ;;
      await h (loadAsync (JStr (media_url selectedVideo)) (isActive && playing))
  | None => mret tt
  end.

(** The status object handed to [onPlaybackStatusUpdate]. *)
Record PlaybackStatus : Type := mkStatus {
  isLoaded : bool;
  status_error : option string
}.

Definition onPlaybackStatusUpdate (status : PlaybackStatus) : M unit :=
  if isLoaded status then
    setIsLoading false ;; setError None
  else
    match status_error status with
    | Some e =>
        if negb (String.eqb e "") then
          setError (Some ("Video Error: " ++ e)) ;;
          setIsLoading false ;;
          emit (ConsoleError ["Video Playback Error:"; e])
        else mret tt
    | None => mret tt
    end.

Definition onLoadStart : M unit :=
  setIsLoading true ;; setError None.

Definition onError (e : string) : M unit :=
  setError (Some ("Failed to load video. " ++ e)) ;;
  setIsLoading false ;;
  emit (ConsoleError ["Video Load Error:"; e]).

(** *** Mounting and re-rendering *)

(** [useEffect(effect, deps)]: the effect runs after a commit whose
    dependencies differ from those of the previous one. *)
Definition depsChanged {A} `{EqDecision A} (prev next : A) : bool :=
  negb (bool_decide (prev = next)).

Definition useEffect (changed : bool) (effect : M unit) : M unit :=
  if changed then effect else mret tt.

(** What a render reads: the props and [videoRef.current]. *)
Record Render : Type := mkRender {
  props : HomeScreen.VideoFeedItemProps;
  seenRef : option nat
}.

Definition initialState (p : HomeScreen.VideoFeedItemProps) (handle : nat) : State :=
  {| videoRef := Some handle;
     isPlaying := false;
     isLoading := true;
     error := None;
     currentVideo := HomeScreen.initialVideoData p |}.

(** Effects of the first commit: both run. *)
Definition mount (p : HomeScreen.VideoFeedItemProps) : M unit :=
  initialDataEffect (HomeScreen.initialVideoData p) ;;
  activeEffect (HomeScreen.isActive p).

(** Effects of a later commit. *)
Definition update (prev next : Render) : M unit :=
  useEffect (depsChanged (HomeScreen.initialVideoData (props prev))
                         (HomeScreen.initialVideoData (props next)))
            (initialDataEffect (HomeScreen.initialVideoData (props next))) ;;
  useEffect (depsChanged (HomeScreen.isActive (props prev), seenRef prev)
                         (HomeScreen.isActive (props next), seenRef next))
            (activeEffect (HomeScreen.isActive (props next))).

(** Projections of a run. *)
Definition stateAfter {A} (m : M A) (p : Player) (s : State) : State :=
  snd (fst (m p s)).
Definition traceOf {A} (m : M A) (p : Player) (s : State) : list Event :=
  snd (m p s).
Definition completionOf {A} (m : M A) (p : Player) (s : State) : Completion A :=
  fst (fst (m p s)).

Definition isLoadOrUnload (e : Event) : bool :=
  match e with
  | VideoCall _ unloadAsync | VideoCall _ (loadAsync _ _) => true
  | _ => false
  end.

(** The call the [isActive] effect makes, and the label it logs a
    rejection under. *)
Definition activeCmd (isActive : bool) : VideoCmd :=
  if isActive then playAsync else pauseAsync.

Definition activeLabel (isActive : bool) : string :=
  if isActive then "Error playing video on active: "
  else "Error pausing video on inactive: ".

(** The call a press on the card makes. *)
Definition pressCmd (playing : bool) : VideoCmd :=
  if playing then pauseAsync else playAsync.

(** A player on which every call succeeds, and one on which every call
    fails. *)
Definition healthy : Player := fun _ => Fulfilled.
Definition broken (reason : string) : Player := fun _ => Rejected reason.

End VideoFeedItem.

(** ** The drawer: the account header images *)

Module Drawer.

(** State of [CustomDrawerContent] and the store cell it reads. *)
Record State : Type := mkState {
  currentUserId : JsVal;
  currentUser : option JsObject;
  authorizedUsers : list JsObject
}.

(** [onError] of every [Image] in the drawer; [err] is
    [e.nativeEvent.error]. *)
Definition imageOnError (err : string) (st : State)
  : State * list VideoFeedItem.Event :=
  (st, [VideoFeedItem.ConsoleLog ["Failed to load image"; err]]).

End Drawer.

(** ** The view-model as the specification words it *)

Module Described.

(** An entry is kept when its [media_type] is ['video'] and it has a
    non-empty [media_url] (or [mediaUrl]) and a [contentId]. *)
Definition selected (item : JsObject) : bool :=
  strict_eq (get item "media_type") (JStr "video")
  && (truthy (get item "media_url") || truthy (get item "mediaUrl"))
  && truthy (get item "contentId").

(** Author fields resolved from the users fixture through [poster_id],
    with the defaults when no matching user exists. *)
Definition authorViaPosterId (users : list JsObject) (item : JsObject)
  : JsVal * JsVal :=
  match get item "poster_id" with
  | JStr poster =>
      match find (fun u => strict_eq (get u "id") (JStr poster)) users with
      | Some user => (get user "name", get user "handle")
      | None => (JStr "Unknown Author", JStr "unknownhandle")
      end
  | _ => (JStr "Unknown Author", JStr "unknownhandle")
  end.

Definition view (users : list JsObject) (item : JsObject) : VideoPlayerData :=
  {| id := get item "contentId";
     videoSource := js_or (get item "media_url") (get item "mediaUrl");
     posterSource := get item "thumbnail_url";
     authorName := fst (authorViaPosterId users item);
     authorHandle := snd (authorViaPosterId users item);
     caption := js_or (get item "message") (JStr "No caption") |}.

Definition processedFeedItems (posts users : list JsObject) : list VideoPlayerData :=
  map (view users) (List.filter selected posts).

(** The same, with the two points on which the code is more specific: an
    entry without a string [poster_id] that carries its own string
    [authorName] keeps it (and its [authorHandle], if any), and an empty
    [thumbnail_url] gives no poster at all. *)
Definition authorResolved (users : list JsObject) (item : JsObject)
  : JsVal * JsVal :=
  match get item "poster_id", get item "authorName" with
  | JStr poster, _ =>
      match find (fun u => strict_eq (get u "id") (JStr poster)) users with
      | Some user => (get user "name", get user "handle")
      | None => (JStr "Unknown Author", JStr "unknownhandle")
      end
  | _, JStr name =>
      (JStr name, js_or (get item "authorHandle") (JStr "unknownhandle"))
  | _, _ => (JStr "Unknown Author", JStr "unknownhandle")
  end.

Definition viewAmended (users : list JsObject) (item : JsObject) : VideoPlayerData :=
  {| id := get item "contentId";
     videoSource := js_or (get item "media_url") (get item "mediaUrl");
     posterSource := if truthy (get item "thumbnail_url")
                     then get item "thumbnail_url" else JUndefined;
     authorName := fst (authorResolved users item);
     authorHandle := snd (authorResolved users item);
     caption := js_or (get item "message") (JStr "No caption") |}.

Definition processedFeedItemsAmended (posts users : list JsObject)
  : list VideoPlayerData :=
  map (viewAmended users) (List.filter selected posts).

(** The fixture shape on which the two readings coincide: a string
    [poster_id], and a [thumbnail_url] that is non-empty or absent. *)
Definition posterIdShaped (item : JsObject) : Prop :=
  is_string (get item "poster_id") = true /\
  (truthy (get item "thumbnail_url") = true \/ get item "thumbnail_url" = JUndefined).

End Described.

(** ** Sample fixtures and states *)

Module Sample.

Definition obj (fields : list (string * JsVal)) : JsObject := list_to_map fields.

Definition ann : JsObject :=
  obj [("id", JStr "1"); ("name", JStr "Ann"); ("handle", JStr "ann");
       ("profile_picture", JStr "https://img/ann.png")].

Definition users : list JsObject := [ann].

(** A post in the [poster_id] shape. *)
Definition post1 : JsObject :=
  obj [("contentId", JStr "c1"); ("poster_id", JStr "1");
       ("media_type", JStr "video"); ("media_url", JStr "https://v/1.mp4");
       ("thumbnail_url", JStr "https://v/1.jpg"); ("message", JStr "first")].

(** A post in the shape that carries its own author. *)
Definition post2 : JsObject :=
  obj [("contentId", JStr "c2"); ("authorName", JStr "Bob");
       ("media_type", JStr "video"); ("mediaUrl", JStr "https://v/2.mp4")].

(** A text post. *)
Definition post3 : JsObject :=
  obj [("contentId", JStr "c3"); ("poster_id", JStr "1");
       ("media_type", JStr "text"); ("message", JStr "no media")].

(** A video post whose [thumbnail_url] is the empty string. *)
Definition post4 : JsObject :=
  obj [("contentId", JStr "c4"); ("poster_id", JStr "1");
       ("media_type", JStr "video"); ("media_url", JStr "https://v/4.mp4");
       ("thumbnail_url", JStr "")].

Definition posts : list JsObject := [post1; post3; post2].

Definition video1 : VideoPlayerData :=
  {| id := JStr "c1"; videoSource := JStr "https://v/1.mp4";
     posterSource := JStr "https://v/1.jpg";
     authorName := JStr "Ann"; authorHandle := JStr "ann";
     caption := JStr "first" |}.

Definition video2 : VideoPlayerData :=
  {| id := JStr "c2"; videoSource := JStr "https://v/2.mp4";
     posterSource := JUndefined;
     authorName := JStr "Bob"; authorHandle := JStr "unknownhandle";
     caption := JStr "No caption" |}.

Definition inactive : HomeScreen.VideoFeedItemProps :=
  {| HomeScreen.initialVideoData := video1; HomeScreen.isActive := false |}.
Definition active : HomeScreen.VideoFeedItemProps :=
  {| HomeScreen.initialVideoData := video1; HomeScreen.isActive := true |}.

(** A mounted card (handle 7) showing [video1], paused, still loading. *)
Definition card : VideoFeedItem.State := VideoFeedItem.initialState inactive 7.

(** The same card while it plays. *)
Definition playingCard : VideoFeedItem.State :=
  VideoFeedItem.mkState (Some 7) true false None video1.

Definition sawInactive : VideoFeedItem.Render := VideoFeedItem.mkRender inactive (Some 7).
Definition sawActive : VideoFeedItem.Render := VideoFeedItem.mkRender active (Some 7).

Definition similar : SimilarVideoData :=
  {| sim_id := "sim1";
     media_url := "http://d23dyxeqlo5psv.cloudfront.net/big_buck_bunny.mp4";
     thumbnail_url := Some "https://peach.blender.org/wp-content/uploads/title_anouncement.jpg?x11217";
     title := "Big Buck Bunny (Similar)" |}.

Definition env1 : HomeScreen.Environment :=
  HomeScreen.mkEnv posts users [JStr "1"] (JStr "1") 0.
Definition env2 : HomeScreen.Environment :=
  HomeScreen.mkEnv posts users [] JNull 1762041600000.

(** [post1] with counters the mapping never reads, and [ann] with a
    different picture. *)
Definition post1Liked : JsObject :=
  <["like_count" := JNum 12]> (<["view_count" := JStr "3K"]> post1).
Definition annRepainted : JsObject :=
  <["profile_picture" := JStr "https://img/ann-2.png"]> ann.

Definition env3 : HomeScreen.Environment :=
  HomeScreen.mkEnv [post1Liked; post3; post2] [annRepainted] [] JNull 7.

End Sample.

(** ** The drawer shell: swipe gate *)

Module DrawerLayout.

Definition allowedDrawerRoutes : list string := ["grok"].

(** [xs.includes(x)] on strings. *)
Definition includes (xs : list string) (x : string) : bool :=
  existsb (String.eqb x) xs.

(** [pathname[3] || ''] *)
Definition fourthSegment (pathname : list string) : string :=
  match pathname !! 3 with
  | Some seg => if String.eqb seg "" then "" else seg
  | None => ""
  end.

(** The [swipeEnabled] screen option for the segments [useSegments()]
    returns. *)
Definition swipeEnabled (pathname : list string) : bool :=
  includes allowedDrawerRoutes (fourthSegment pathname).

End DrawerLayout.

(** ** The drawer content: which account is current *)

Module DrawerContent.

(** [accounts.includes(x)] (SameValueZero, which on fixture values is
    [===]). *)
Definition includes (accounts : list JsVal) (x : JsVal) : bool :=
  existsb (fun a => strict_eq a x) accounts.

(** A row of the users fixture is an object of its own: it is referred to
    by its position, so that two rows are the same object exactly when
    they are at the same position. *)
Definition row (users : list JsObject) (i : nat) : JsObject :=
  default ∅ (users !! i).

(** [users.filter(p)] and [users.find(p)], by position; [i] is the
    position of the head of the list. *)
Fixpoint filterFrom (p : JsObject -> bool) (users : list JsObject) (i : nat)
  : list nat :=
  match users with
  | [] => []
  | u :: rest => if p u then i :: filterFrom p rest (S i) else filterFrom p rest (S i)
  end.

Fixpoint findFrom (p : JsObject -> bool) (users : list JsObject) (i : nat)
  : option nat :=
  match users with
  | [] => None
  | u :: rest => if p u then Some i else findFrom p rest (S i)
  end.

(** The array held by [authorizedUsers]: the literal [[]] it starts with,
    or the one array the filter builds. *)
Inductive UsersArray : Type :=
| InitialArray
| FilteredArray (rows : list nat).

#[global] Instance UsersArray_eq_dec : EqDecision UsersArray.
Proof. solve_decision. Defined.

Definition elements (a : UsersArray) : list nat :=
  match a with InitialArray => [] | FilteredArray rows => rows end.

(** What a render of [CustomDrawerContent] reads: the store's
    [currentUserId] and the two state cells. *)
Record State : Type := mkState {
  currentUserId : JsVal;
  currentUser : option nat;
  authorizedUsers : UsersArray
}.

#[global] Instance State_eq_dec : EqDecision State.
Proof. solve_decision. Defined.

Definition initialState (storedId : JsVal) : State :=
  {| currentUserId := storedId; currentUser := None; authorizedUsers := InitialArray |}.

(** The calls an effect or a handler makes. *)
Inductive Action : Type :=
| SetAuthorizedUsers (rows : list nat)
| SetCurrentUser (i : nat)
| SetCurrentUserId (userId : JsVal)
| Dismiss
| Present.

(** The store is not part of these sources; its [setCurrentUserId] is
    taken to replace the [currentUserId] it hands out. *)
Definition apply (s : State) (a : Action) : State :=
  match a with
  | SetAuthorizedUsers rows => mkState (currentUserId s) (currentUser s) (FilteredArray rows)
  | SetCurrentUser i => mkState (currentUserId s) (Some i) (authorizedUsers s)
  | SetCurrentUserId x => mkState x (currentUser s) (authorizedUsers s)
  | Dismiss | Present => s
  end.

Definition commit (actions : list Action) (s : State) : State :=
  foldl apply s actions.

(** First effect (no dependencies). *)
Definition authorizedEffect (users : list JsObject) (authorizedAccounts : list JsVal)
  : list Action :=
  [SetAuthorizedUsers
     (filterFrom (fun user => includes authorizedAccounts (get user "id")) users 0)].

(** Second effect (depends on [currentUserId]). *)
Definition currentUserEffect (users : list JsObject) (s : State) : list Action :=
  if truthy (currentUserId s) then
    match findFrom (fun user => strict_eq (get user "id") (currentUserId s)) users 0 with
    | Some user => [SetCurrentUser user]
    | None => []
    end
  else [].

(** Third effect (depends on [authorizedUsers] and [currentUser]). *)
Definition defaultAccountEffect (users : list JsObject) (s : State) : list Action :=
  match currentUser s, elements (authorizedUsers s) with
  | None, first :: _ => [SetCurrentUser first; SetCurrentUserId (get (row users first) "id")]
  | _, _ => []
  end.

Definition handleSelectAccount (userId : JsVal) : list Action :=
  [SetCurrentUserId userId; Dismiss].

Definition handlePresentModalPress : list Action := [Present].

(** Effects of the first commit, run on what the first render read. *)
Definition mountEffects (users : list JsObject) (authorizedAccounts : list JsVal)
           (s : State) : list Action :=
  (authorizedEffect users authorizedAccounts
     ++ currentUserEffect users s
     ++ defaultAccountEffect users s)%list.

(** Effects of a later commit: those whose dependencies differ from the
    previous render's. *)
Definition updateEffects (users : list JsObject) (prev next : State) : list Action :=
  ((if bool_decide (currentUserId prev = currentUserId next)
    then [] else currentUserEffect users next)
     ++
   (if bool_decide ((authorizedUsers prev, currentUser prev)
                    = (authorizedUsers next, currentUser next))
    then [] else defaultAccountEffect users next))%list.

(** [n] further commits after the render of [cur] that followed the
    render of [prev]. *)
Fixpoint settle (n : nat) (users : list JsObject) (prev cur : State) : State :=
  match n with
  | 0 => cur
  | S n' => settle n' users cur (commit (updateEffects users prev cur) cur)
  end.

(** The component from its first render on, [n] commits after the
    mounting one. *)
Definition mounted (users : list JsObject) (authorizedAccounts : list JsVal)
           (storedId : JsVal) (n : nat) : State :=
  let s0 := initialState storedId in
  settle n users s0 (commit (mountEffects users authorizedAccounts s0) s0).

(** A press on the account row of user [i], then [n] commits. *)
Definition selected (users : list JsObject) (s : State) (i : nat) (n : nat) : State :=
  settle n users s (commit (handleSelectAccount (get (row users i) "id")) s).

(** The rows the filter keeps, and the row the stored id finds. *)
Definition authorizedRows (users : list JsObject) (authorizedAccounts : list JsVal)
  : list nat :=
  filterFrom (fun user => includes authorizedAccounts (get user "id")) users 0.

Definition storedUser (users : list JsObject) (storedId : JsVal) : option nat :=
  if truthy storedId
  then findFrom (fun user => strict_eq (get user "id") storedId) users 0
  else None.

(** [currentUser?.name || 'Twitter User'] *)
Definition userName (users : list JsObject) (s : State) : JsVal :=
  js_or (from_option (fun i => get (row users i) "name") JUndefined (currentUser s))
        (JStr "Twitter User").

(** The check mark of each account row: [currentUserId === user.id]. *)
Definition checkMarks (users : list JsObject) (s : State) : list bool :=
  map (fun i => strict_eq (currentUserId s) (get (row users i) "id"))
      (elements (authorizedUsers s)).

End DrawerContent.

(** ** A thumbnail of the similar-videos strip *)

Module SimilarVideoThumbnail.

Inductive Thumb : Type :=
| Image (uri : string)
| Placeholder (text : string).

Record View : Type := mkView {
  thumb : Thumb;
  titleText : string
}.

Definition render (videoData : SimilarVideoData) : View :=
  {| thumb := match thumbnail_url videoData with
              | Some uri => if negb (String.eqb uri "") then Image uri
                            else Placeholder "No Image"
              | None => Placeholder "No Image"
              end;
     titleText := title videoData |}.

(** [onPress]: the callback gets the thumbnail's own data. *)
Definition onPress {R} (videoData : SimilarVideoData)
           (onVideoSelect : SimilarVideoData -> R) : R :=
  onVideoSelect videoData.

End SimilarVideoThumbnail.

(** ** A card in use: what it shows, and what it does on each input *)

Module Card.

Import VideoFeedItem.

Definition dummySimilarVideos : list SimilarVideoData :=
  [ {| sim_id := "sim1";
       media_url := "http://d23dyxeqlo5psv.cloudfront.net/big_buck_bunny.mp4";
       thumbnail_url := Some "https://peach.blender.org/wp-content/uploads/title_anouncement.jpg?x11217";
       title := "Big Buck Bunny (Similar)" |};
    {| sim_id := "sim2";
       media_url := "http://commondatastorage.googleapis.com/gtv-videos-bucket/sample/ElephantsDream.mp4";
       thumbnail_url := Some "https://storage.googleapis.com/gtv-videos-bucket/sample/images/ElephantsDream.jpg";
       title := "Elephants Dream (Similar)" |};
    {| sim_id := "sim3";
       media_url := "http://commondatastorage.googleapis.com/gtv-videos-bucket/sample/ForBiggerBlazes.mp4";
       thumbnail_url := Some "https://storage.googleapis.com/gtv-videos-bucket/sample/images/ForBiggerBlazes.jpg";
       title := "For Bigger Blazes (Similar)" |} ].

(** The parts of the rendered card that depend on its state. *)
Record View : Type := mkView {
  sourceUri : JsVal;
  poster : option JsVal;
  loadingOverlay : bool;
  errorOverlay : option string;
  authorNameText : JsVal;
  authorHandleText : JsVal;
  captionText : JsVal;
  similarVideos : list SimilarVideoThumbnail.View
}.

Definition render (s : State) : View :=
  {| sourceUri := videoSource (currentVideo s);
     poster := if truthy (posterSource (currentVideo s))
               then Some (posterSource (currentVideo s)) else None;
     loadingOverlay := isLoading s;
     errorOverlay :=
       match error s with
       | Some msg => if negb (String.eqb msg "") && negb (isLoading s)
                     then Some msg else None
       | None => None
       end;
     authorNameText := authorName (currentVideo s);
     authorHandleText := authorHandle (currentVideo s);
     captionText := caption (currentVideo s);
     similarVideos :=
       if Nat.ltb 0 (length dummySimilarVideos)
       then map SimilarVideoThumbnail.render dummySimilarVideos else [] |}.

(** What can happen to a mounted card. *)
Inductive Input : Type :=
| Press
| PlaybackStatusUpdate (status : PlaybackStatus)
| LoadStart
| LoadError (e : string)
| ThumbnailPress (isActive : bool) (videoData : SimilarVideoData)
| Rerender (prev next : Render).

Definition react (i : Input) : M unit :=
  match i with
  | Press => handlePlayPause
  | PlaybackStatusUpdate status => onPlaybackStatusUpdate status
  | LoadStart => onLoadStart
  | LoadError e => onError e
  | ThumbnailPress isActive videoData =>
      SimilarVideoThumbnail.onPress videoData (handleSimilarVideoSelect isActive)
  | Rerender prev next => update prev next
  end.

(** A sequence of inputs, each met by the player as it then is.  A
    handler that throws leaves a rejected promise behind and the card goes
    on. *)
Fixpoint session (inputs : list (Input * Player)) (s : State) : State * list Event :=
  match inputs with
  | [] => (s, [])
  | (i, p) :: rest =>
      let '(_, s1, t1) := react i p s in
      let '(s2, t2) := session rest s1 in
      (s2, (t1 ++ t2)%list)
  end.

(** An input that hands the card a different feed item. *)
Definition changesItem (i : Input) : bool :=
  match i with
  | Rerender prev next =>
      depsChanged (HomeScreen.initialVideoData (props prev))
                  (HomeScreen.initialVideoData (props next))
  | _ => false
  end.

(** The handle a call in the trace is made on. *)
Definition calledHandle (e : Event) : option nat :=
  match e with VideoCall h _ => Some h | _ => None end.

(** A trace entry is the card's own when it is no call, or a call on the
    card's handle. *)
Definition ownCall (s : State) (e : Event) : Prop :=
  calledHandle e = None \/ calledHandle e = videoRef s.

(** An error cell is well formed when it is null or a non-empty message. *)
Definition errorCellOk (s : State) : bool :=
  match error s with Some msg => negb (String.eqb msg "") | None => true end.

End Card.

(** ** More sample data *)

Module Sample2.

Definition bea : JsObject :=
  Sample.obj [("id", JStr "2"); ("name", JStr "Bea"); ("handle", JStr "bea")].
Definition cy : JsObject :=
  Sample.obj [("id", JStr "3"); ("handle", JStr "cy")].

Definition users : list JsObject := [Sample.ann; bea; cy].
Definition authorizedAccounts : list JsVal := [JStr "3"; JStr "2"].

(** A post by a user that is in no fixture, and one by the user without a
    name. *)
Definition postByStranger : JsObject :=
  Sample.obj [("contentId", JStr "c5"); ("poster_id", JStr "77");
              ("media_type", JStr "video"); ("media_url", JStr "https://v/5.mp4")].
Definition postByCy : JsObject :=
  Sample.obj [("contentId", JStr "c6"); ("poster_id", JStr "3");
              ("media_type", JStr "video"); ("media_url", JStr "https://v/6.mp4")].

Definition feed : list VideoPlayerData := [Sample.video1; Sample.video2].



Definition noThumbnail : SimilarVideoData :=
  {| sim_id := "sim9"; media_url := "https://v/9.mp4";
     thumbnail_url := Some ""; title := "Untitled" |}.

End Sample2.

(** * Properties *)

(** ** JavaScript values *)

Section JsFacts.

Lemma strict_eq_true (a b : JsVal) : strict_eq a b = true <-> a = b.
Proof. unfold strict_eq. apply bool_decide_eq_true. Qed.

Lemma truthy_not_null (v : JsVal) : truthy v = true -> v <> JNull /\ v <> JUndefined.
Proof. destruct v; simpl; intros H; split; congruence. Qed.

Lemma truthy_js_or (a b : JsVal) : truthy (js_or a b) = truthy a || truthy b.
Proof. unfold js_or. destruct (truthy a) eqn:Ha; simpl; [exact Ha | reflexivity]. Qed.

(** [map] to a record-or-null followed by dropping the nulls is a filter
    followed by a [map]. *)
Lemma filter_not_null_map {A B} (f : A -> option B) (sel : A -> bool) (g : A -> B)
      (xs : list A) :
  (forall x, f x = if sel x then Some (g x) else None) ->
  filter_not_null (map f xs) = map g (List.filter sel xs).
Proof.
  intros Hf. induction xs as [|x xs IH]; simpl; [reflexivity|].
  rewrite Hf. destruct (sel x); simpl; rewrite IH; reflexivity.
Qed.

End JsFacts.

(** ** The feed view-model *)

Section ViewModel.

Import HomeScreen.

Variable users : list JsObject.

(** The mapping callback, case by case: it keeps exactly the selected
    entries and builds the amended view of each. *)
Lemma toVideoPlayerData_selected (item : JsObject) :
  toVideoPlayerData users item =
    if Described.selected item then Some (Described.viewAmended users item) else None.
Proof.
  unfold toVideoPlayerData, Described.selected, Described.viewAmended,
    Described.authorResolved.
  rewrite truthy_js_or.
  destruct (strict_eq (get item "media_type") (JStr "video")
            && (truthy (get item "media_url") || truthy (get item "mediaUrl"))
            && truthy (get item "contentId")) eqn:Hsel.
  - destruct (get item "poster_id") as [| | | | poster |] eqn:Hp; simpl;
      try (destruct (get item "authorName"); simpl; unfold js_or;
           destruct (truthy (get item "thumbnail_url")); reflexivity).
    destruct (find _ users); unfold js_or;
      destruct (truthy (get item "thumbnail_url")); reflexivity.
  - destruct (get item "poster_id") as [| | | | poster |]; simpl;
      try (destruct (get item "authorName"); reflexivity).
    destruct (find _ users); reflexivity.
Qed.

Lemma processedFeedItems_filter_map (posts : list JsObject) :
  processedFeedItems posts users = Described.processedFeedItemsAmended posts users.
Proof.
  unfold processedFeedItems, Described.processedFeedItemsAmended.
  apply filter_not_null_map, toVideoPlayerData_selected.
Qed.

End ViewModel.

Section FeedFacts.

Import HomeScreen.

Lemma selected_contentId (item : JsObject) :
  Described.selected item = true -> truthy (get item "contentId") = true.
Proof.
  unfold Described.selected. intros H.
  apply andb_true_iff in H as [_ H]. exact H.
Qed.

(** Every processed item has a truthy id. *)
Lemma processedFeedItems_id_truthy (posts users : list JsObject) (v : VideoPlayerData) :
  v ∈ processedFeedItems posts users -> truthy (id v) = true.
Proof.
  rewrite processedFeedItems_filter_map. unfold Described.processedFeedItemsAmended.
  intros Hin. apply list_elem_of_In, in_map_iff in Hin as (item & <- & Hitem).
  apply filter_In in Hitem as [_ Hsel]. simpl. apply selected_contentId, Hsel.
Qed.

Lemma viewAmended_posterIdShaped (users : list JsObject) (item : JsObject) :
  Described.posterIdShaped item -> Described.viewAmended users item = Described.view users item.
Proof.
  intros [Hp Ht]. unfold Described.viewAmended, Described.view,
    Described.authorResolved, Described.authorViaPosterId.
  destruct (get item "poster_id"); try discriminate Hp.
  destruct Ht as [Ht | Ht]; rewrite Ht; reflexivity.
Qed.

(** At most one element of a list with distinct ids has a given id. *)
Lemma at_most_one_with_id (a : JsVal) (l : list VideoPlayerData) :
  NoDup (map id l) ->
  length (List.filter (fun v => strict_eq (id v) a) l) <= 1.
Proof.
  induction l as [|v l IH]; simpl; intros Hnd; [lia|].
  apply NoDup_cons in Hnd as [Hv Hnd].
  destruct (strict_eq (id v) a) eqn:Heq; [|auto].
  apply strict_eq_true in Heq. simpl.
  assert (List.filter (fun v => strict_eq (id v) a) l = []) as ->; [|simpl; lia].
  destruct (List.filter _ l) as [|w ws] eqn:Hf; [reflexivity|exfalso].
  assert (In w (List.filter (fun v => strict_eq (id v) a) l)) as Hw
    by (rewrite Hf; left; reflexivity).
  apply filter_In in Hw as [Hw Hwa]. apply strict_eq_true in Hwa.
  apply Hv. rewrite Heq, <- Hwa. apply list_elem_of_In, in_map, Hw.
Qed.

Lemma filter_isActive_render (st : State) (l : list VideoPlayerData) :
  List.filter isActive (map (renderVideoItem st) l) =
  map (renderVideoItem st) (List.filter (fun v => strict_eq (id v) (activeVideoId st)) l).
Proof.
  induction l as [|v l IH]; simpl; [reflexivity|].
  destruct (strict_eq (id v) (activeVideoId st)); simpl; rewrite IH; reflexivity.
Qed.



Lemma render_empty (items : list VideoPlayerData) (st : State) :
  items = [] ->
  render items st =
    EmptyFeed "No videos available at the moment."
      "Please check back later or ensure 'dummy/posts.json' has video entries.".
Proof. intros ->. reflexivity. Qed.

Lemma render_nonempty (items : list VideoPlayerData) (st : State) :
  items <> [] -> render items st = FlatList items (renderVideoItem st).
Proof. destruct items; [congruence | reflexivity]. Qed.

Lemma fromList_item (data : list VideoPlayerData) (t : ViewToken) (v : VideoPlayerData) :
  fromList data t -> item t = Some v -> v ∈ data.
Proof.
  intros (i & viewable & _ & ->) Hv. simpl in Hv.
  eapply list_elem_of_lookup_2, Hv.
Qed.

(** The callback either leaves the state alone or stores the id of the
    first token's item. *)
Lemma onViewableItemsChanged_cases (tokens : list ViewToken) (st : State) :
  onViewableItemsChanged tokens st = st \/
  exists t rest v, tokens = t :: rest /\ isViewable t = true /\ item t = Some v /\
                   onViewableItemsChanged tokens st = {| activeVideoId := id v |}.
Proof.
  destruct tokens as [|t rest]; [left; reflexivity|].
  simpl. destruct (isViewable t) eqn:Hv; [|left; reflexivity].
  destruct (item t) as [v|] eqn:Hi; [|left; reflexivity].
  right. exists t, rest, v. auto.
Qed.

(** Invariant of the screen over a feed whose ids are all truthy: a
    non-null active id stays non-null. *)
Lemma step_keeps_non_null (data : list VideoPlayerData) (st st' : State) :
  (forall v, v ∈ data -> truthy (id v) = true) ->
  step data st st' -> activeVideoId st <> JNull -> activeVideoId st' <> JNull.
Proof.
  intros Hids Hstep Hst. destruct Hstep as [tokens st Hfrom].
  destruct (onViewableItemsChanged_cases tokens st)
    as [-> | (t & rest & v & -> & _ & Hitem & ->)]; [exact Hst|].
  simpl. apply truthy_not_null, Hids.
  apply Forall_cons in Hfrom as [Ht _]. eapply fromList_item; eassumption.
Qed.

End FeedFacts.

Section ReadsOnly.

Import HomeScreen.

Lemma find_agree (poster : JsVal) (users1 users2 : list JsObject) :
  Forall2 (agreeOn userKeys) users1 users2 ->
  option_Forall2 (agreeOn userKeys)
    (find (fun u => strict_eq (get u "id") poster) users1)
    (find (fun u => strict_eq (get u "id") poster) users2).
Proof.
  induction 1 as [|u1 u2 l1 l2 Hu _ IH]; simpl; [constructor|].
  assert (get u1 "id" = get u2 "id") as ->.
  { unfold agreeOn, userKeys in Hu. rewrite Forall_forall in Hu.
    apply Hu. left. }
  destruct (strict_eq (get u2 "id") poster); [constructor; exact Hu | exact IH].
Qed.

Lemma toVideoPlayerData_agree (users1 users2 : list JsObject) (item1 item2 : JsObject) :
  Forall2 (agreeOn userKeys) users1 users2 ->
  agreeOn postKeys item1 item2 ->
  toVideoPlayerData users1 item1 = toVideoPlayerData users2 item2.
Proof.
  intros Hu Hi. unfold agreeOn, postKeys in Hi.
  repeat (apply Forall_cons_1 in Hi as [? Hi]).
  unfold toVideoPlayerData.
  repeat match goal with H : get item1 _ = get item2 _ |- _ => rewrite H; clear H end.
  destruct (is_string (get item2 "poster_id")).
  - destruct (find_agree (get item2 "poster_id") users1 users2 Hu) as [u1 u2 Hu12|].
    + unfold agreeOn, userKeys in Hu12.
      repeat (apply Forall_cons_1 in Hu12 as [? Hu12]).
      repeat match goal with H : get u1 _ = get u2 _ |- _ => rewrite H; clear H end.
      destruct (_ && _); reflexivity.
    + reflexivity.
  - destruct (is_string (get item2 "authorName")); destruct (_ && _); reflexivity.
Qed.

(** Only the listed properties of the fixtures reach the view-model. *)
Lemma processedFeedItems_agree (posts1 posts2 users1 users2 : list JsObject) :
  Forall2 (agreeOn postKeys) posts1 posts2 ->
  Forall2 (agreeOn userKeys) users1 users2 ->
  processedFeedItems posts1 users1 = processedFeedItems posts2 users2.
Proof.
  intros Hp Hu. unfold processedFeedItems.
  induction Hp as [|i1 i2 l1 l2 Hi _ IH]; simpl; [reflexivity|].
  rewrite (toVideoPlayerData_agree users1 users2 i1 i2 Hu Hi), IH. reflexivity.
Qed.

End ReadsOnly.

(** ** One video card *)

(** Unfold a handler down to the state, completion and trace it yields. *)
Ltac run :=
  unfold VideoFeedItem.stateAfter, VideoFeedItem.traceOf, VideoFeedItem.completionOf,
    VideoFeedItem.update, VideoFeedItem.mount, VideoFeedItem.useEffect,
    VideoFeedItem.initialDataEffect, VideoFeedItem.activeEffect,
    VideoFeedItem.handlePlayPause, VideoFeedItem.handleSimilarVideoSelect,
    VideoFeedItem.onError, VideoFeedItem.onPlaybackStatusUpdate,
    VideoFeedItem.onLoadStart, VideoFeedItem.detached, VideoFeedItem.catch,
    VideoFeedItem.await, VideoFeedItem.read, VideoFeedItem.emit,
    VideoFeedItem.setIsPlaying, VideoFeedItem.setIsLoading, VideoFeedItem.setError,
    VideoFeedItem.setCurrentVideo, mbind, mret, VideoFeedItem.M_bind,
    VideoFeedItem.M_ret in *;
  simpl in *.

Section CardFacts.

Import VideoFeedItem.

Lemma activeEffect_unmounted (a : bool) (p : Player) (s : State) :
  videoRef s = None -> activeEffect a p s = (Normal tt, s, []).
Proof. intros H. run. rewrite H. reflexivity. Qed.

Lemma activeEffect_mounted (a : bool) (p : Player) (s : State) (h : nat) :
  videoRef s = Some h ->
  activeEffect a p s =
    match p (activeCmd a) with
    | Fulfilled =>
        (Normal tt, mkState (videoRef s) a (isLoading s) (error s) (currentVideo s),
         [VideoCall h (activeCmd a)])
    | Rejected e =>
        (Normal tt, s, [VideoCall h (activeCmd a); ConsoleError [activeLabel a; e]])
    end.
Proof.
  intros H. destruct s as [ref playing loading err cur]. run. subst ref.
  destruct a; simpl; [destruct (p playAsync) | destruct (p pauseAsync)]; reflexivity.
Qed.

Lemma activeEffect_no_load (a : bool) (p : Player) (s : State) :
  List.filter isLoadOrUnload (traceOf (activeEffect a) p s) = [].
Proof.
  destruct (videoRef s) as [h|] eqn:H; unfold traceOf.
  - rewrite (activeEffect_mounted a p s h H).
    destruct a; simpl; [destruct (p playAsync) | destruct (p pauseAsync)]; reflexivity.
  - rewrite activeEffect_unmounted by exact H. reflexivity.
Qed.

(** The effect on [initialVideoData] always completes; it resets the
    three cells and leaves the handle and the error alone. *)
Lemma initialDataEffect_state (v : VideoPlayerData) (p : Player) (s : State) :
  completionOf (initialDataEffect v) p s = Normal tt /\
  stateAfter (initialDataEffect v) p s = mkState (videoRef s) false true (error s) v.
Proof.
  run. destruct (videoRef s) as [h|]; simpl; [|split; reflexivity].
  destruct (p unloadAsync); simpl; [|split; reflexivity].
  destruct (p (loadAsync (videoSource v) false)); split; reflexivity.
Qed.

Lemma initialDataEffect_trace (v : VideoPlayerData) (p : Player) (s : State) (h : nat) :
  videoRef s = Some h ->
  p unloadAsync = Fulfilled ->
  List.filter isLoadOrUnload (traceOf (initialDataEffect v) p s) =
    [VideoCall h unloadAsync; VideoCall h (loadAsync (videoSource v) false)].
Proof.
  intros H Hp. run. rewrite H. simpl. rewrite Hp. simpl.
  destruct (p (loadAsync (videoSource v) false)); reflexivity.
Qed.

(** Bind, projected. *)
Lemma bind_normal {A B} (m : M A) (k : A -> M B) (p : Player) (s : State) (a : A) :
  completionOf m p s = Normal a ->
  stateAfter (m ≫= k) p s = stateAfter (k a) p (stateAfter m p s) /\
  traceOf (m ≫= k) p s = (traceOf m p s ++ traceOf (k a) p (stateAfter m p s))%list /\
  completionOf (m ≫= k) p s = completionOf (k a) p (stateAfter m p s).
Proof.
  unfold completionOf, stateAfter, traceOf, mbind, M_bind.
  destruct (m p s) as [[c s1] t1]; simpl. intros ->.
  destruct (k a p s1) as [[r s2] t2]; simpl. auto.
Qed.

Lemma useEffect_initialData (changed : bool) (v : VideoPlayerData) (p : Player) (s : State) :
  completionOf (useEffect changed (initialDataEffect v)) p s = Normal tt /\
  videoRef (stateAfter (useEffect changed (initialDataEffect v)) p s) = videoRef s /\
  isPlaying (stateAfter (useEffect changed (initialDataEffect v)) p s) =
    (if changed then false else isPlaying s).
Proof.
  destruct changed; simpl.
  - destruct (initialDataEffect_state v p s) as [Hc Hs]. rewrite Hc, Hs. auto.
  - auto.
Qed.

Lemma depsChanged_true {A} `{EqDecision A} (x y : A) : x <> y -> depsChanged x y = true.
Proof. intros H. unfold depsChanged. rewrite bool_decide_eq_false_2; auto. Qed.

Lemma depsChanged_false {A} `{EqDecision A} (x : A) : depsChanged x x = false.
Proof. unfold depsChanged. rewrite bool_decide_eq_true_2; auto. Qed.

(** What a commit does when [isActive] differs from the previous render
    and the handle is mounted. *)
Lemma update_on_transition (prev next : Render) (p : Player) (s : State) (h : nat) :
  videoRef s = Some h ->
  HomeScreen.isActive (props prev) <> HomeScreen.isActive (props next) ->
  let a := HomeScreen.isActive (props next) in
  let first := useEffect (depsChanged (HomeScreen.initialVideoData (props prev))
                                      (HomeScreen.initialVideoData (props next)))
                         (initialDataEffect (HomeScreen.initialVideoData (props next))) in
  stateAfter (update prev next) p s = stateAfter (activeEffect a) p (stateAfter first p s) /\
  traceOf (update prev next) p s =
    (traceOf first p s ++ traceOf (activeEffect a) p (stateAfter first p s))%list.
Proof.
  intros Href Hneq a first.
  destruct (useEffect_initialData
              (depsChanged (HomeScreen.initialVideoData (props prev))
                           (HomeScreen.initialVideoData (props next)))
              (HomeScreen.initialVideoData (props next)) p s) as (Hc & _ & _).
  unfold update.
  destruct (bind_normal first
              (fun _ => useEffect (depsChanged (HomeScreen.isActive (props prev), seenRef prev)
                                               (HomeScreen.isActive (props next), seenRef next))
                                  (activeEffect (HomeScreen.isActive (props next))))
              p s tt Hc) as (Hs & Ht & _).
  fold first. rewrite Hs, Ht.
  rewrite depsChanged_true by congruence. simpl. auto.
Qed.

End CardFacts.

(** * The claims *)

Section FeedClaims.

Import HomeScreen.




(** C4 (amended).  [processedFeedItems] holds, in the fixture's order,
    exactly the entries whose [media_type] is ['video'] and that have a
    non-empty [media_url] (or [mediaUrl]) and a non-empty [contentId];
    each is mapped to id = contentId, videoSource = media_url (or
    mediaUrl), posterSource = thumbnail_url (undefined when empty),
    caption = message (or 'No caption'), with the author taken from the
    matching user when [poster_id] is a string, from the entry's own
    [authorName]/[authorHandle] when it is not and [authorName] is a
    string, and defaulting to 'Unknown Author'/'unknownhandle' otherwise.
    On fixtures in the [poster_id] shape this is the view-model as the
    specification words it. *)
Theorem C4_processedFeedItems_view_model (posts users : list JsObject) :
  processedFeedItems posts users =
    map (Described.viewAmended users) (List.filter Described.selected posts) /\
  (Forall Described.posterIdShaped posts ->
   processedFeedItems posts users = Described.processedFeedItems posts users).
Proof.
  split; [apply processedFeedItems_filter_map|].
  intros Hshape. rewrite processedFeedItems_filter_map.
  unfold Described.processedFeedItemsAmended, Described.processedFeedItems.
  apply map_ext_in. intros item Hin. apply filter_In in Hin as [Hin _].
  apply viewAmended_posterIdShaped.
  rewrite Forall_forall in Hshape. apply Hshape, list_elem_of_In, Hin.
Qed.

Lemma C4_witness :
  processedFeedItems [Sample.post1; Sample.post3] Sample.users =
    Described.processedFeedItems [Sample.post1; Sample.post3] Sample.users.
Proof.
  apply (C4_processedFeedItems_view_model [Sample.post1; Sample.post3] Sample.users).
  constructor; [|constructor; [|constructor]].
  - split; [reflexivity | left; reflexivity].
  - split; [reflexivity | right; reflexivity].
Defined.

(** C4, as first stated, fails: an entry without [poster_id] that names
    its own author is not given the default author (and an entry with an
    empty [thumbnail_url] gets no poster rather than the empty one). *)
Lemma C4_counterexample :
  processedFeedItems [Sample.post2] Sample.users = [Sample.video2] /\
  Described.processedFeedItems [Sample.post2] Sample.users <>
    processedFeedItems [Sample.post2] Sample.users /\
  (posterSource <$> processedFeedItems [Sample.post4] Sample.users) = [JUndefined] /\
  (posterSource <$> Described.processedFeedItems [Sample.post4] Sample.users)
    = [JStr ""].
Proof.
  split; [vm_compute; reflexivity|]. split; [vm_compute; discriminate|].
  split; vm_compute; reflexivity.
Qed.

(** C7.  Two evaluations of the module in environments that hold the same
    posts and users fixtures compute the same [processedFeedItems],
    whatever else differs between them; it is even enough that the
    fixtures agree on the properties the mapping reads. *)
Theorem C7_view_model_depends_on_fixtures_only (e1 e2 : Environment) :
  (posts_json e1 = posts_json e2 ->
   users_json e1 = users_json e2 ->
   evalProcessedFeedItems e1 = evalProcessedFeedItems e2) /\
  (Forall2 (agreeOn postKeys) (posts_json e1) (posts_json e2) ->
   Forall2 (agreeOn userKeys) (users_json e1) (users_json e2) ->
   evalProcessedFeedItems e1 = evalProcessedFeedItems e2).
Proof.
  unfold evalProcessedFeedItems. split.
  - intros -> ->. reflexivity.
  - apply processedFeedItems_agree.
Qed.

Lemma C7_witness :
  evalProcessedFeedItems Sample.env1 = evalProcessedFeedItems Sample.env2 /\
  evalProcessedFeedItems Sample.env1 = evalProcessedFeedItems Sample.env3.
Proof.
  split.
  - apply (proj1 (C7_view_model_depends_on_fixtures_only Sample.env1 Sample.env2));
      reflexivity.
  - apply (proj2 (C7_view_model_depends_on_fixtures_only Sample.env1 Sample.env3)).
    + repeat constructor.
    + repeat constructor.
Defined.

(** C8.  With no processed item the screen renders the empty-feed message
    and mounts no card; it renders the list exactly when there is at least
    one processed item, and then over all of them. *)
Theorem C8_empty_feed_message (posts users : list JsObject) (st : State) :
  (processedFeedItems posts users = [] ->
   (exists sub, render (processedFeedItems posts users) st =
                  EmptyFeed "No videos available at the moment." sub) /\
   forall first count,
     mountedRows (render (processedFeedItems posts users) st) first count = []) /\
  (forall data renderItem,
      render (processedFeedItems posts users) st = FlatList data renderItem <->
      processedFeedItems posts users <> [] /\
      data = processedFeedItems posts users /\ renderItem = renderVideoItem st).
Proof.
  split.
  - intros ->. split; [eexists; reflexivity | reflexivity].
  - intros data renderItem. destruct (processedFeedItems posts users) as [|v l].
    + simpl. split; [discriminate | intros [H _]; congruence].
    + rewrite render_nonempty by discriminate. split.
      * intros H. inversion H; subst. auto.
      * intros (_ & -> & ->). reflexivity.
Qed.

Lemma C8_witness :
  (exists sub, render (processedFeedItems [Sample.post3] Sample.users) initialState =
                 EmptyFeed "No videos available at the moment." sub) /\
  forall first count,
    mountedRows (render (processedFeedItems [Sample.post3] Sample.users) initialState)
                first count = [].
Proof.
  apply (C8_empty_feed_message [Sample.post3] Sample.users initialState).
  vm_compute. reflexivity.
Defined.

(** C10.  The active-video id starts as null.  A viewability callback
    leaves it unchanged when the list of viewable items is empty or its
    first entry is not viewable or has no item, and otherwise overwrites
    it with the id of that first entry's item.  Over the processed feed,
    once it is not null it never is null again. *)
Theorem C10_active_id_tracking (posts users : list JsObject) :
  activeVideoId initialState = JNull /\
  (forall st, onViewableItemsChanged [] st = st) /\
  (forall t rest st,
      isViewable t = false \/ item t = None ->
      onViewableItemsChanged (t :: rest) st = st) /\
  (forall t rest v st,
      isViewable t = true -> item t = Some v ->
      activeVideoId (onViewableItemsChanged (t :: rest) st) = id v) /\
  (forall st st',
      reachableFrom (processedFeedItems posts users) st st' ->
      activeVideoId st <> JNull -> activeVideoId st' <> JNull).
Proof.
  split; [reflexivity|]. split; [reflexivity|]. split; [|split].
  - intros t rest st [H | H]; simpl; rewrite H; [reflexivity|].
    destruct (isViewable t); reflexivity.
  - intros t rest v st Hv Hi. simpl. rewrite Hv, Hi. reflexivity.
  - intros st st' Hreach. induction Hreach as [|st mid st' Hstep _ IH]; [auto|].
    intros Hst. apply IH.
    eapply step_keeps_non_null; [|exact Hstep|exact Hst].
    intros v. apply processedFeedItems_id_truthy.
Qed.

Lemma C10_witness :
  activeVideoId
    (onViewableItemsChanged
       [tokenOf (processedFeedItems Sample.posts Sample.users) 1 true]
       {| activeVideoId := JStr "c1" |}) <> JNull.
Proof.
  apply (proj2 (proj2 (proj2 (proj2 (C10_active_id_tracking Sample.posts Sample.users))))
           {| activeVideoId := JStr "c1" |}).
  - apply rtc_once, step_viewable. repeat constructor.
    exists 1, true. split; [vm_compute; lia | reflexivity].
  - discriminate.
Defined.

End FeedClaims.

Section CardClaims.

Import VideoFeedItem.

(** C2 (amended).  For a card with a mounted video handle, a commit in
    which [isActive] differs from the previous render issues play (when
    it became true) or pause (when it became false) on the handle; when
    that call's promise fulfils, [isPlaying] is set to the new [isActive];
    when it rejects, the rejection is logged with [console.error] and the
    effect leaves [isPlaying] as it found it. *)
Theorem C2_activation_plays_or_pauses
        (prev next : Render) (p : Player) (s : State) (h : nat) :
  videoRef s = Some h ->
  HomeScreen.isActive (props prev) <> HomeScreen.isActive (props next) ->
  let a := HomeScreen.isActive (props next) in
  let reset := depsChanged (HomeScreen.initialVideoData (props prev))
                           (HomeScreen.initialVideoData (props next)) in
  VideoCall h (activeCmd a) ∈ traceOf (update prev next) p s /\
  (p (activeCmd a) = Fulfilled ->
   isPlaying (stateAfter (update prev next) p s) = a) /\
  (forall e, p (activeCmd a) = Rejected e ->
     ConsoleError [activeLabel a; e] ∈ traceOf (update prev next) p s /\
     isPlaying (stateAfter (update prev next) p s) =
       (if reset then false else isPlaying s)).
Proof.
  intros Href Hneq a reset.
  destruct (update_on_transition prev next p s h Href Hneq) as [Hs Ht].
  destruct (useEffect_initialData reset (HomeScreen.initialVideoData (props next)) p s)
    as (_ & Href1 & Hplay1).
  fold a reset in Hs, Ht. rewrite Hs, Ht. rewrite Href in Href1.
  set (s1 := stateAfter (useEffect reset _) p s) in *.
  set (t1 := traceOf (useEffect reset _) p s).
  unfold stateAfter, traceOf.
  rewrite (activeEffect_mounted a p s1 h Href1).
  split; [|split].
  - apply elem_of_app. right. destruct (p (activeCmd a)); simpl; left.
  - intros ->. reflexivity.
  - intros e ->. simpl. split; [|exact Hplay1].
    apply elem_of_app. right. right. left.
Qed.

Lemma C2_witness :
  VideoCall 7 playAsync ∈
    traceOf (update Sample.sawInactive Sample.sawActive) healthy Sample.card /\
  isPlaying (stateAfter (update Sample.sawInactive Sample.sawActive) healthy Sample.card)
    = true.
Proof.
  destruct (C2_activation_plays_or_pauses Sample.sawInactive Sample.sawActive
              healthy Sample.card 7) as (Hcall & Hplay & _).
  - reflexivity.
  - simpl. discriminate.
  - split; [exact Hcall | apply Hplay; reflexivity].
Defined.

(** C2, as first stated, fails: when the play call is rejected the card
    becomes active without [isPlaying] being set. *)
Lemma C2_counterexample :
  videoRef Sample.card = Some 7 /\
  update Sample.sawInactive Sample.sawActive (broken "not loaded") Sample.card =
    (Normal tt, Sample.card,
     [VideoCall 7 playAsync;
      ConsoleError ["Error playing video on active: "; "not loaded"]]) /\
  isPlaying (stateAfter (update Sample.sawInactive Sample.sawActive)
                        (broken "not loaded") Sample.card) <> true.
Proof. split; [reflexivity|]. split; [reflexivity | vm_compute; discriminate]. Qed.

(** C3 (amended).  For a card with a mounted video handle, an
    activation change makes the card play its video (it became active) or
    pause it (it became inactive): the call is issued on the handle, and
    when the card's item is unchanged it is the only call, followed by a
    [console.error] if it is rejected.  An activation change never loads
    or unloads the video.  The video resource is unloaded and then loaded
    again (not playing) when the card is handed a different
    [initialVideoData], and (playing only if the card is active and was
    playing) when a similar video is selected, in both cases provided the
    handle is mounted and the unload succeeds. *)
Theorem C3_load_and_unload_are_not_driven_by_activation
        (prev next : Render) (p : Player) (s : State) :
  (forall h,
      videoRef s = Some h ->
      HomeScreen.isActive (props prev) <> HomeScreen.isActive (props next) ->
      VideoCall h (activeCmd (HomeScreen.isActive (props next)))
        ∈ traceOf (update prev next) p s /\
      (HomeScreen.initialVideoData (props prev) = HomeScreen.initialVideoData (props next) ->
       traceOf (update prev next) p s =
         VideoCall h (activeCmd (HomeScreen.isActive (props next))) ::
         match p (activeCmd (HomeScreen.isActive (props next))) with
         | Fulfilled => []
         | Rejected e =>
             [ConsoleError [activeLabel (HomeScreen.isActive (props next)); e]]
         end)) /\
  (forall a, List.filter isLoadOrUnload (traceOf (activeEffect a) p s) = []) /\
  (HomeScreen.initialVideoData (props prev) = HomeScreen.initialVideoData (props next) ->
   List.filter isLoadOrUnload (traceOf (update prev next) p s) = []) /\
  (forall h,
      videoRef s = Some h -> p unloadAsync = Fulfilled ->
      HomeScreen.initialVideoData (props prev) <> HomeScreen.initialVideoData (props next) ->
      List.filter isLoadOrUnload (traceOf (update prev next) p s) =
        [VideoCall h unloadAsync;
         VideoCall h (loadAsync (videoSource (HomeScreen.initialVideoData (props next)))
                                false)]) /\
  (forall h a sel,
      videoRef s = Some h -> p unloadAsync = Fulfilled ->
      List.filter isLoadOrUnload (traceOf (handleSimilarVideoSelect a sel) p s) =
        [VideoCall h unloadAsync;
         VideoCall h (loadAsync (JStr (media_url sel)) (a && isPlaying s))]).
Proof.
  assert (Hupd : forall changed,
    traceOf (update prev next) p s =
      (traceOf (useEffect changed
                  (initialDataEffect (HomeScreen.initialVideoData (props next)))) p s ++
       traceOf (useEffect (depsChanged (HomeScreen.isActive (props prev), seenRef prev)
                                       (HomeScreen.isActive (props next), seenRef next))
                          (activeEffect (HomeScreen.isActive (props next)))) p
         (stateAfter (useEffect changed
                        (initialDataEffect (HomeScreen.initialVideoData (props next))))
                     p s))%list \/
    changed <> depsChanged (HomeScreen.initialVideoData (props prev))
                           (HomeScreen.initialVideoData (props next))).
  { intros changed.
    destruct (decide (changed = depsChanged (HomeScreen.initialVideoData (props prev))
                                            (HomeScreen.initialVideoData (props next))))
      as [-> | Hne]; [left | right; exact Hne].
    destruct (useEffect_initialData
                (depsChanged (HomeScreen.initialVideoData (props prev))
                             (HomeScreen.initialVideoData (props next)))
                (HomeScreen.initialVideoData (props next)) p s) as (Hc & _ & _).
    unfold update. eapply bind_normal in Hc as (_ & Ht & _). exact Ht. }
  assert (Hsecond : forall changed s1,
    List.filter isLoadOrUnload
      (traceOf (useEffect changed (activeEffect (HomeScreen.isActive (props next)))) p s1)
    = []).
  { intros [] s1; [apply activeEffect_no_load | reflexivity]. }
  split; [|split; [intros a; apply activeEffect_no_load|]; split; [|split]].
  - intros h Href Hneq. clear Hupd Hsecond.
    destruct (update_on_transition prev next p s h Href Hneq) as [_ Ht].
    destruct (useEffect_initialData
                (depsChanged (HomeScreen.initialVideoData (props prev))
                             (HomeScreen.initialVideoData (props next)))
                (HomeScreen.initialVideoData (props next)) p s) as (_ & Href1 & _).
    rewrite Href in Href1. split.
    + rewrite Ht. apply elem_of_app. right. unfold traceOf at 1.
      rewrite (activeEffect_mounted _ p _ h Href1).
      destruct (p (activeCmd _)); left.
    + intros Hsame. rewrite Ht. clear Ht Href1.
      rewrite Hsame, depsChanged_false. simpl useEffect.
      unfold traceOf, stateAfter. simpl.
      rewrite (activeEffect_mounted _ p s h Href).
      destruct (p (activeCmd _)); reflexivity.
  - intros Hsame. destruct (Hupd false) as [-> | Hne].
    + rewrite List.filter_app, Hsecond. reflexivity.
    + rewrite Hsame, depsChanged_false in Hne. congruence.
  - intros h Href Hp Hdiff. destruct (Hupd true) as [-> | Hne].
    + rewrite List.filter_app, Hsecond, app_nil_r. simpl useEffect.
      apply initialDataEffect_trace; assumption.
    + rewrite depsChanged_true in Hne by exact Hdiff. congruence.
  - intros h a sel Href Hp. clear Hupd Hsecond.
    destruct s as [ref playing loading err cur].
    run. subst ref. simpl. rewrite Hp. simpl.
    destruct (p (loadAsync (JStr (media_url sel)) (a && playing))); reflexivity.
Qed.

Lemma C3_witness :
  traceOf (update Sample.sawInactive Sample.sawActive) healthy Sample.card
    = [VideoCall 7 playAsync] /\
  traceOf (update Sample.sawActive Sample.sawInactive) (broken "busy") Sample.playingCard
    = [VideoCall 7 pauseAsync;
       ConsoleError ["Error pausing video on inactive: "; "busy"]] /\
  List.filter isLoadOrUnload
    (traceOf (update Sample.sawInactive Sample.sawActive) healthy Sample.card) = [] /\
  List.filter isLoadOrUnload
    (traceOf (update Sample.sawActive
                     (mkRender (HomeScreen.mkProps Sample.video2 true) (Some 7)))
             healthy Sample.playingCard)
    = [VideoCall 7 unloadAsync; VideoCall 7 (loadAsync (JStr "https://v/2.mp4") false)].
Proof.
  split; [|split; [|split]].
  - apply (proj2 (proj1 (C3_load_and_unload_are_not_driven_by_activation
             Sample.sawInactive Sample.sawActive healthy Sample.card) 7 eq_refl
             ltac:(simpl; discriminate)) eq_refl).
  - apply (proj2 (proj1 (C3_load_and_unload_are_not_driven_by_activation
             Sample.sawActive Sample.sawInactive (broken "busy") Sample.playingCard)
             7 eq_refl ltac:(simpl; discriminate)) eq_refl).
  - apply (proj1 (proj2 (proj2 (C3_load_and_unload_are_not_driven_by_activation
             Sample.sawInactive Sample.sawActive healthy Sample.card)))).
    reflexivity.
  - apply (proj1 (proj2 (proj2 (proj2 (C3_load_and_unload_are_not_driven_by_activation
             Sample.sawActive (mkRender (HomeScreen.mkProps Sample.video2 true) (Some 7))
             healthy Sample.playingCard)))) 7 eq_refl eq_refl).
    vm_compute. discriminate.
Defined.

(** C3, as first stated, fails: becoming active only plays the video and
    becoming inactive only pauses it; nothing is loaded or unloaded. *)
Lemma C3_counterexample :
  traceOf (update Sample.sawInactive Sample.sawActive) healthy Sample.card
    = [VideoCall 7 playAsync] /\
  traceOf (update Sample.sawActive Sample.sawInactive) healthy Sample.playingCard
    = [VideoCall 7 pauseAsync].
Proof. split; reflexivity. Qed.

End CardClaims.

Section FailureAndGestureClaims.

Import VideoFeedItem.

(** C5 (amended).  A failed image load in the drawer is only logged: the
    drawer state is unchanged.  A failed video load (the [onError]
    callback, or a playback status that is not loaded and carries an
    error) is logged with [console.error], and the card also records the
    message in [error] and clears [isLoading]; it makes no call on the
    video handle and leaves the handle, [isPlaying] and [currentVideo]
    unchanged. *)
Theorem C5_load_failure_handling
        (e : string) (d : Drawer.State) (p : Player) (s : State) :
  Drawer.imageOnError e d = (d, [ConsoleLog ["Failed to load image"; e]]) /\
  onError e p s =
    (Normal tt,
     mkState (videoRef s) (isPlaying s) false (Some ("Failed to load video. " ++ e))
             (currentVideo s),
     [ConsoleError ["Video Load Error:"; e]]) /\
  (e <> "" ->
   onPlaybackStatusUpdate {| isLoaded := false; status_error := Some e |} p s =
     (Normal tt,
      mkState (videoRef s) (isPlaying s) false (Some ("Video Error: " ++ e))
              (currentVideo s),
      [ConsoleError ["Video Playback Error:"; e]])).
Proof.
  split; [reflexivity|]. split; [reflexivity|].
  intros He. run. destruct (String.eqb e "") eqn:Heq; [|reflexivity].
  apply String.eqb_eq in Heq. contradiction.
Qed.

Lemma C5_witness :
  onPlaybackStatusUpdate {| isLoaded := false; status_error := Some "decoder" |}
                         healthy Sample.card =
    (Normal tt,
     mkState (Some 7) false false (Some "Video Error: decoder") Sample.video1,
     [ConsoleError ["Video Playback Error:"; "decoder"]]).
Proof.
  apply (C5_load_failure_handling "decoder" (Drawer.mkState JNull None [])
           healthy Sample.card).
  discriminate.
Defined.

(** C5, as first stated, fails: a video load failure changes the card's
    state (and with it what the card shows), beyond being logged. *)
Lemma C5_counterexample :
  stateAfter (onError "boom") healthy Sample.card <> Sample.card /\
  isLoading (stateAfter (onError "boom") healthy Sample.card) = false /\
  error (stateAfter (onError "boom") healthy Sample.card)
    = Some "Failed to load video. boom" /\
  isLoading Sample.card = true /\ error Sample.card = None.
Proof. split; [vm_compute; discriminate | repeat split]. Qed.

(** C6 (amended).  With a mounted video handle, a press issues pause when
    [isPlaying] is true and play when it is false.  When the call's
    promise fulfils, [isPlaying] is set to the opposite value and nothing
    else changes, so two presses whose calls both fulfil bring the card
    back to its original state.  When the promise rejects, the handler
    throws and [isPlaying] keeps its value. *)
Theorem C6_handlePlayPause_toggles (p p' : Player) (s : State) (h : nat) :
  videoRef s = Some h ->
  traceOf handlePlayPause p s = [VideoCall h (pressCmd (isPlaying s))] /\
  (p (pressCmd (isPlaying s)) = Fulfilled ->
   stateAfter handlePlayPause p s =
     mkState (videoRef s) (negb (isPlaying s)) (isLoading s) (error s) (currentVideo s) /\
   (p' (pressCmd (negb (isPlaying s))) = Fulfilled ->
    stateAfter handlePlayPause p' (stateAfter handlePlayPause p s) = s)) /\
  (forall e, p (pressCmd (isPlaying s)) = Rejected e ->
     completionOf handlePlayPause p s = Throw e /\
     stateAfter handlePlayPause p s = s).
Proof.
  intros Href. destruct s as [ref playing loading err cur]. run. subst ref.
  destruct playing; simpl.
  - destruct (p pauseAsync) eqn:Hp; simpl.
    + split; [reflexivity|]. split; [|discriminate].
      intros _. split; [reflexivity|]. intros ->. reflexivity.
    + split; [reflexivity|]. split; [discriminate|].
      intros e [= <-]. auto.
  - destruct (p playAsync) eqn:Hp; simpl.
    + split; [reflexivity|]. split; [|discriminate].
      intros _. split; [reflexivity|]. intros ->. reflexivity.
    + split; [reflexivity|]. split; [discriminate|].
      intros e [= <-]. auto.
Qed.

Lemma C6_witness :
  isPlaying (stateAfter handlePlayPause healthy Sample.playingCard) = false /\
  stateAfter handlePlayPause healthy
    (stateAfter handlePlayPause healthy Sample.playingCard) = Sample.playingCard.
Proof.
  destruct (C6_handlePlayPause_toggles healthy healthy Sample.playingCard 7)
    as (_ & Hok & _); [reflexivity|].
  destruct Hok as [Hs Htwice]; [reflexivity|].
  split; [rewrite Hs; reflexivity | apply Htwice; reflexivity].
Defined.

(** C6, as first stated, fails: when the pause call is rejected the press
    does not set [isPlaying] to false. *)
Lemma C6_counterexample :
  videoRef Sample.playingCard = Some 7 /\
  isPlaying Sample.playingCard = true /\
  handlePlayPause (broken "not loaded") Sample.playingCard =
    (Throw "not loaded", Sample.playingCard, [VideoCall 7 pauseAsync]) /\
  isPlaying (stateAfter handlePlayPause (broken "not loaded") Sample.playingCard)
    <> false.
Proof. repeat split. vm_compute. discriminate. Qed.

(** C9.  Selecting a similar video replaces the id, videoSource,
    posterSource and caption of the current video by the selected video's
    id, media_url, thumbnail_url and title, and keeps its authorName and
    authorHandle, whatever the player then does. *)
Theorem C9_similar_video_keeps_author
        (a : bool) (sel : SimilarVideoData) (p : Player) (s : State) :
  let v := currentVideo (stateAfter (handleSimilarVideoSelect a sel) p s) in
  id v = JStr (sim_id sel) /\
  videoSource v = JStr (media_url sel) /\
  posterSource v = from_option JStr JUndefined (thumbnail_url sel) /\
  caption v = JStr (title sel) /\
  authorName v = authorName (currentVideo s) /\
  authorHandle v = authorHandle (currentVideo s).
Proof.
  destruct s as [ref playing loading err cur]. run.
  destruct ref as [h|]; simpl; [|repeat split].
  destruct (p unloadAsync); simpl; [|repeat split].
  destruct (p (loadAsync (JStr (media_url sel)) (a && playing))); repeat split.
Qed.

End FailureAndGestureClaims.

(** * Further properties of the feed *)

Section FeedExtras.

Import HomeScreen.

Lemma processedFeedItems_cons (users : list JsObject) (item : JsObject)
      (posts : list JsObject) :
  processedFeedItems (item :: posts) users =
    (match toVideoPlayerData users item with Some v => [v] | None => [] end
       ++ processedFeedItems posts users)%list.
Proof. unfold processedFeedItems. simpl. destruct (toVideoPlayerData users item); reflexivity. Qed.

(** X1.  Every item of the view-model has a non-empty id, a non-empty
    video source and a non-empty caption, and its poster is either
    non-empty or undefined. *)
Theorem X1_processed_items_are_well_formed
        (posts users : list JsObject) (v : VideoPlayerData) :
  v ∈ processedFeedItems posts users ->
  truthy (id v) = true /\ truthy (videoSource v) = true /\
  truthy (caption v) = true /\
  (truthy (posterSource v) = true \/ posterSource v = JUndefined).
Proof.
  rewrite processedFeedItems_filter_map. unfold Described.processedFeedItemsAmended.
  intros Hin. apply list_elem_of_In, in_map_iff in Hin as (item & <- & Hitem).
  apply filter_In in Hitem as [_ Hsel]. unfold Described.selected in Hsel.
  apply andb_true_iff in Hsel as [Hsel Hid]. apply andb_true_iff in Hsel as [_ Hurl].
  simpl. split; [exact Hid|]. split; [rewrite truthy_js_or; exact Hurl|]. split.
  - unfold js_or. destruct (truthy (get item "message")) eqn:Hm; [exact Hm | reflexivity].
  - destruct (truthy (get item "thumbnail_url")) eqn:Ht; [left; exact Ht | right; reflexivity].
Qed.

Lemma X1_witness :
  truthy (id Sample.video2) = true /\ truthy (videoSource Sample.video2) = true /\
  truthy (caption Sample.video2) = true /\
  (truthy (posterSource Sample.video2) = true \/ posterSource Sample.video2 = JUndefined).
Proof.
  apply (X1_processed_items_are_well_formed Sample.posts Sample.users Sample.video2).
  vm_compute. right. left.
Defined.

(** X2.  The view-model of two fixtures put end to end is the two
    view-models put end to end, and a view-model never has more items
    than the fixture has posts. *)
Theorem X2_processedFeedItems_app (posts1 posts2 users : list JsObject) :
  processedFeedItems (posts1 ++ posts2) users =
    (processedFeedItems posts1 users ++ processedFeedItems posts2 users)%list /\
  length (processedFeedItems posts1 users) <= length posts1.
Proof.
  split.
  - induction posts1 as [|item posts1 IH]; [reflexivity|].
    simpl app. rewrite !processedFeedItems_cons, IH, app_assoc. reflexivity.
  - induction posts1 as [|item posts1 IH]; [simpl; lia|].
    rewrite processedFeedItems_cons, length_app.
    destruct (toVideoPlayerData users item); simpl; lia.
Qed.

Lemma find_app_found {A} (p : A -> bool) (xs extra : list A) :
  find p xs <> None -> find p (xs ++ extra) = find p xs.
Proof.
  induction xs as [|x xs IH]; simpl; [congruence|].
  destruct (p x); [reflexivity | exact IH].
Qed.

Lemma find_none {A} (p : A -> bool) (xs : list A) :
  Forall (fun x => p x = false) xs -> find p xs = None.
Proof. induction 1 as [|x xs Hx _ IH]; simpl; [reflexivity|]. rewrite Hx. exact IH. Qed.

Lemma find_first {A} (p : A -> bool) (before after : list A) (x : A) :
  Forall (fun y => p y = false) before -> p x = true ->
  find p (before ++ x :: after) = Some x.
Proof.
  induction 1 as [|y ys Hy _ IH]; simpl; intros Hx; [rewrite Hx; reflexivity|].
  rewrite Hy. apply IH, Hx.
Qed.

(** X3.  Users appended to the fixture do not change the view-model as
    long as every post with a string [poster_id] already finds its user:
    the first user with the id is the one that counts. *)
Theorem X3_first_matching_user_wins (posts users extra : list JsObject) :
  Forall (fun item =>
            is_string (get item "poster_id") = true ->
            find (fun u => strict_eq (get u "id") (get item "poster_id")) users <> None)
         posts ->
  processedFeedItems posts (users ++ extra) = processedFeedItems posts users.
Proof.
  intros Hall. unfold processedFeedItems. f_equal.
  apply map_ext_in. intros item Hin.
  rewrite Forall_forall in Hall. specialize (Hall item (proj2 (list_elem_of_In _ _) Hin)).
  unfold toVideoPlayerData.
  destruct (is_string (get item "poster_id")); [|reflexivity].
  rewrite find_app_found by (apply Hall; reflexivity). reflexivity.
Qed.

Lemma X3_witness :
  processedFeedItems Sample.posts (Sample.users ++ [Sample2.bea; Sample.ann]) =
  processedFeedItems Sample.posts Sample.users.
Proof.
  apply (X3_first_matching_user_wins Sample.posts Sample.users [Sample2.bea; Sample.ann]).
  repeat constructor; vm_compute; congruence.
Defined.

(** X4.  For a kept post whose [poster_id] is a string: when no user has
    that id the author is 'Unknown Author' / 'unknownhandle', whatever
    [authorName] the post itself carries; when some user has it, the
    author is the [name] and [handle] of the first such user, also when
    that user has none (the defaults are not used then). *)
Theorem X4_author_of_a_poster_id_post
        (users : list JsObject) (item : JsObject) (poster : string) :
  get item "poster_id" = JStr poster ->
  Described.selected item = true ->
  (Forall (fun u => get u "id" <> JStr poster) users ->
   authorName <$> toVideoPlayerData users item = Some (JStr "Unknown Author") /\
   authorHandle <$> toVideoPlayerData users item = Some (JStr "unknownhandle")) /\
  (forall before user after,
      users = (before ++ user :: after)%list ->
      Forall (fun u => get u "id" <> JStr poster) before ->
      get user "id" = JStr poster ->
      authorName <$> toVideoPlayerData users item = Some (get user "name") /\
      authorHandle <$> toVideoPlayerData users item = Some (get user "handle")).
Proof.
  intros Hp Hsel. rewrite toVideoPlayerData_selected, Hsel.
  unfold Described.viewAmended, Described.authorResolved. rewrite Hp. simpl.
  assert (Hmiss : forall l, Forall (fun u => get u "id" <> JStr poster) l ->
            Forall (fun u => strict_eq (get u "id") (JStr poster) = false) l).
  { intros l Hl. eapply Forall_impl; [exact Hl|]. intros u Hu. simpl in *.
    destruct (strict_eq (get u "id") (JStr poster)) eqn:He; [|reflexivity].
    apply strict_eq_true in He. contradiction. }
  split.
  - intros Hnone. rewrite (find_none _ _ (Hmiss _ Hnone)). split; reflexivity.
  - intros before user after -> Hbefore Huser.
    rewrite (find_first _ before after user (Hmiss _ Hbefore))
      by (apply strict_eq_true, Huser).
    split; reflexivity.
Qed.

Lemma X4_witness :
  (authorName <$> toVideoPlayerData Sample2.users Sample2.postByStranger
     = Some (JStr "Unknown Author")) /\
  (authorName <$> toVideoPlayerData Sample2.users Sample2.postByCy = Some JUndefined).
Proof.
  split.
  - apply (X4_author_of_a_poster_id_post Sample2.users Sample2.postByStranger "77");
      [reflexivity | reflexivity |].
    repeat constructor; vm_compute; congruence.
  - apply (proj2 (X4_author_of_a_poster_id_post Sample2.users Sample2.postByCy "3"
                    eq_refl eq_refl)
             [Sample.ann; Sample2.bea] Sample2.cy []);
      [reflexivity | | reflexivity].
    repeat constructor; vm_compute; congruence.
Defined.

End FeedExtras.

Section ActivationExtras.

Import HomeScreen.

(** X5.  A viewability callback looks at its first token only: the rest
    of the list is ignored (a viewable token behind a first token that is
    not viewable changes nothing), reporting the same list twice is the
    same as reporting it once, and a callback that changes the state
    yields the same state from any starting state. *)
Theorem X5_only_the_first_token_counts (t : ViewToken) (rest : list ViewToken)
        (tokens : list ViewToken) (st st' : State) :
  onViewableItemsChanged (t :: rest) st = onViewableItemsChanged [t] st /\
  (isViewable t = false -> onViewableItemsChanged (t :: rest) st = st) /\
  onViewableItemsChanged tokens (onViewableItemsChanged tokens st)
    = onViewableItemsChanged tokens st /\
  (onViewableItemsChanged tokens st <> st ->
   onViewableItemsChanged tokens st' = onViewableItemsChanged tokens st).
Proof.
  split; [reflexivity|]. split; [intros H; simpl; rewrite H; reflexivity|].
  destruct tokens as [|t0 rest0]; simpl; [split; [reflexivity | congruence]|].
  destruct (isViewable t0); [|split; [reflexivity | congruence]].
  destruct (item t0); split; (reflexivity || congruence).
Qed.

Lemma X5_witness :
  onViewableItemsChanged
    [tokenOf Sample2.feed 0 false; tokenOf Sample2.feed 1 true]
    {| activeVideoId := JStr "c1" |} = {| activeVideoId := JStr "c1" |} /\
  onViewableItemsChanged [tokenOf Sample2.feed 1 true] {| activeVideoId := JStr "c1" |}
    = onViewableItemsChanged [tokenOf Sample2.feed 1 true] initialState.
Proof.
  split.
  - apply (proj1 (proj2 (X5_only_the_first_token_counts
             (tokenOf Sample2.feed 0 false) [tokenOf Sample2.feed 1 true] []
             {| activeVideoId := JStr "c1" |} initialState))).
    reflexivity.
  - apply (proj2 (proj2 (proj2 (X5_only_the_first_token_counts
             (tokenOf Sample2.feed 0 false) []
             [tokenOf Sample2.feed 1 true] initialState {| activeVideoId := JStr "c1" |})))).
    vm_compute. discriminate.
Defined.

(** The active id is null or names an item of the list's data: kept by
    every step. *)
Lemma step_keeps_named (data : list VideoPlayerData) (st st' : State) :
  step data st st' ->
  (activeVideoId st = JNull \/ exists v, v ∈ data /\ id v = activeVideoId st) ->
  (activeVideoId st' = JNull \/ exists v, v ∈ data /\ id v = activeVideoId st').
Proof.
  intros Hstep Hst. destruct Hstep as [tokens st Hfrom].
  destruct (onViewableItemsChanged_cases tokens st)
    as [-> | (t & rest & v & -> & _ & Hitem & ->)]; [exact Hst|].
  right. exists v. split; [|reflexivity].
  apply Forall_cons in Hfrom as [Ht _]. eapply fromList_item; eassumption.
Qed.

Lemma reachable_named (data : list VideoPlayerData) (st st' : State) :
  reachableFrom data st st' ->
  (activeVideoId st = JNull \/ exists v, v ∈ data /\ id v = activeVideoId st) ->
  (activeVideoId st' = JNull \/ exists v, v ∈ data /\ id v = activeVideoId st').
Proof.
  intros Hreach. induction Hreach as [|st mid st' Hstep _ IH]; [auto|].
  intros Hst. apply IH. eapply step_keeps_named; eassumption.
Qed.

(** X6.  Whatever viewability changes the list reports, the active id
    is either still null or the id of one of the list's items. *)
Theorem X6_active_id_names_a_feed_item (data : list VideoPlayerData) (st : State) :
  reachableFrom data initialState st ->
  activeVideoId st = JNull \/ exists v, v ∈ data /\ id v = activeVideoId st.
Proof. intros Hreach. apply (reachable_named data initialState st Hreach). left. reflexivity. Qed.

Lemma X6_witness :
  activeVideoId (onViewableItemsChanged [tokenOf Sample2.feed 1 true] initialState) = JNull \/
  exists v, v ∈ Sample2.feed /\
            id v = activeVideoId
                     (onViewableItemsChanged [tokenOf Sample2.feed 1 true] initialState).
Proof.
  apply (X6_active_id_names_a_feed_item Sample2.feed).
  apply rtc_once, step_viewable. repeat constructor.
  exists 1, true. split; [vm_compute; lia | reflexivity].
Defined.

Lemma filter_with_id_nonempty (a : JsVal) (l : list VideoPlayerData) (v : VideoPlayerData) :
  v ∈ l -> id v = a ->
  1 <= length (List.filter (fun w => strict_eq (id w) a) l).
Proof.
  intros Hin Hid.
  assert (In v (List.filter (fun w => strict_eq (id w) a) l)) as Hv.
  { apply filter_In. split; [apply list_elem_of_In, Hin | apply strict_eq_true, Hid]. }
  destruct (List.filter _ l); [inversion Hv | simpl; lia].
Qed.

(** X7.  Over a feed with pairwise-distinct ids, once a viewability
    callback has set the active id, exactly one card of the fully mounted
    list is active. *)
Theorem X7_exactly_one_active_once_set (data : list VideoPlayerData) (st : State) :
  NoDup (map id data) ->
  reachableFrom data initialState st ->
  activeVideoId st <> JNull ->
  length (List.filter isActive (mountedRows (render data st) 0 (length data))) = 1.
Proof.
  intros Hnd Hreach Hset.
  destruct (reachable_named data initialState st Hreach (or_introl eq_refl)) as [Hnull | (v & Hin & Hid)]; [contradiction|].
  rewrite render_nonempty by (intros ->; inversion Hin).
  simpl mountedRows. rewrite drop_0, firstn_all.
  rewrite filter_isActive_render, length_map.
  pose proof (at_most_one_with_id (activeVideoId st) data Hnd).
  pose proof (filter_with_id_nonempty (activeVideoId st) data v Hin Hid). lia.
Qed.

Lemma X7_witness :
  length (List.filter isActive
            (mountedRows
               (render Sample2.feed
                  (onViewableItemsChanged [tokenOf Sample2.feed 1 true] initialState))
               0 (length Sample2.feed))) = 1.
Proof.
  apply (X7_exactly_one_active_once_set Sample2.feed).
  - vm_compute. apply (bool_decide_unpack _). vm_compute. exact I.
  - apply rtc_once, step_viewable. repeat constructor.
    exists 1, true. split; [vm_compute; lia | reflexivity].
  - vm_compute. discriminate.
Defined.

(** X8.  When the list reports row [i] as its first viewable token, the
    next render makes the card of that row active and every card with
    another id inactive. *)
Theorem X8_first_viewable_row_becomes_active
        (data : list VideoPlayerData) (i : nat) (rest : list ViewToken)
        (st : State) (v : VideoPlayerData) :
  data !! i = Some v ->
  let st' := onViewableItemsChanged (tokenOf data i true :: rest) st in
  isActive (renderVideoItem st' v) = true /\
  (forall w, id w <> id v -> isActive (renderVideoItem st' w) = false).
Proof.
  intros Hv st'. subst st'. simpl. rewrite Hv. simpl. split.
  - apply strict_eq_true. reflexivity.
  - intros w Hw. destruct (strict_eq (id w) (id v)) eqn:He; [|reflexivity].
    apply strict_eq_true in He. contradiction.
Qed.

Lemma X8_witness :
  isActive (renderVideoItem
              (onViewableItemsChanged [tokenOf Sample2.feed 1 true]
                                      {| activeVideoId := JStr "c1" |})
              Sample.video2) = true /\
  (forall w, id w <> id Sample.video2 ->
     isActive (renderVideoItem
                 (onViewableItemsChanged [tokenOf Sample2.feed 1 true]
                                         {| activeVideoId := JStr "c1" |}) w) = false).
Proof.
  apply (X8_first_viewable_row_becomes_active Sample2.feed 1 []
           {| activeVideoId := JStr "c1" |} Sample.video2).
  reflexivity.
Defined.

End ActivationExtras.

(** * Further properties of a card *)

(** Case analysis on everything a handler branches on. *)
Ltac outcomes p :=
  repeat match goal with
         | |- context [p ?c] => destruct (p c) eqn:?; simpl in *
         | |- context [if ?b then _ else _] => destruct b eqn:?; simpl in *
         end.

Section CardExtras.

Import VideoFeedItem.
Import Card.

(** What one input can and cannot do to a card. *)
Lemma react_step (i : Input) (p : Player) (s : State) :
  videoRef (stateAfter (react i) p s) = videoRef s /\
  Forall (ownCall s) (traceOf (react i) p s) /\
  (errorCellOk s = true -> errorCellOk (stateAfter (react i) p s) = true) /\
  (changesItem i = false ->
   authorName (currentVideo (stateAfter (react i) p s)) = authorName (currentVideo s) /\
   authorHandle (currentVideo (stateAfter (react i) p s)) = authorHandle (currentVideo s)) /\
  (videoRef s = None -> isPlaying s = false ->
   isPlaying (stateAfter (react i) p s) = false).
Proof.
  destruct s as [ref playing loading err cur].
  destruct i as [|status| |e|a sel|prev next]; unfold react, ownCall,
    SimilarVideoThumbnail.onPress, errorCellOk, changesItem; run.
  all: try destruct status as [loaded [e|]]; try destruct loaded; simpl.
  all: destruct ref as [h|]; destruct playing; simpl; outcomes p.
  all: repeat split; try congruence; try reflexivity; auto.
  all: try (repeat constructor; fail).
Qed.

Lemma session_cons (i : Input) (p : Player) (rest : list (Input * Player)) (s : State) :
  session ((i, p) :: rest) s =
    (fst (session rest (stateAfter (react i) p s)),
     (traceOf (react i) p s ++ snd (session rest (stateAfter (react i) p s)))%list).
Proof.
  unfold stateAfter, traceOf. simpl.
  destruct (react i p s) as [[c s1] t1]. simpl.
  destruct (session rest s1) as [s2 t2]. reflexivity.
Qed.

(** X9.  Whatever happens to a card, its video handle stays the one it
    has, and every call it makes is made on that handle. *)
Theorem X9_card_calls_only_its_own_handle (inputs : list (Input * Player)) (s : State) :
  videoRef (fst (session inputs s)) = videoRef s /\
  Forall (ownCall s) (snd (session inputs s)).
Proof.
  revert s. induction inputs as [|[i p] rest IH]; intros s.
  - split; [reflexivity | constructor].
  - rewrite session_cons. simpl.
    destruct (react_step i p s) as (Href & Hown & _).
    destruct (IH (stateAfter (react i) p s)) as [Href' Hown'].
    split; [congruence|]. apply Forall_app. split; [exact Hown|].
    eapply Forall_impl; [exact Hown'|]. unfold ownCall. intros e He.
    rewrite <- Href. exact He.
Qed.

(** X10.  A card whose video handle is not mounted makes no call on any
    handle and, if it is not playing, never comes to count as playing. *)
Theorem X10_unmounted_card_never_plays (inputs : list (Input * Player)) (s : State) :
  videoRef s = None ->
  isPlaying s = false ->
  isPlaying (fst (session inputs s)) = false /\
  Forall (fun e => calledHandle e = None) (snd (session inputs s)).
Proof.
  revert s. induction inputs as [|[i p] rest IH]; intros s Href Hplay.
  - split; [exact Hplay | constructor].
  - rewrite session_cons. simpl.
    destruct (react_step i p s) as (Href1 & Hown & _ & _ & Hstay).
    destruct (IH (stateAfter (react i) p s)) as [Hplay' Hnone'];
      [congruence | apply Hstay; assumption |].
    split; [exact Hplay'|]. apply Forall_app. split; [|exact Hnone'].
    eapply Forall_impl; [exact Hown|]. unfold ownCall. intros e [He | He]; congruence.
Qed.

Lemma X10_witness :
  isPlaying (fst (session [(Press, healthy); (Rerender Sample.sawInactive Sample.sawActive, healthy)]
                          (mkState None false true None Sample.video1))) = false /\
  Forall (fun e => calledHandle e = None)
         (snd (session [(Press, healthy); (Rerender Sample.sawInactive Sample.sawActive, healthy)]
                       (mkState None false true None Sample.video1))).
Proof.
  apply (X10_unmounted_card_never_plays
           [(Press, healthy); (Rerender Sample.sawInactive Sample.sawActive, healthy)]
           (mkState None false true None Sample.video1)); reflexivity.
Defined.

(** X11.  The error cell of a card is only ever null or a non-empty
    message, so the error overlay shows exactly the stored message whenever
    the card is not loading, and is never shown together with the loading
    overlay. *)
Theorem X11_error_overlay_shows_the_stored_error
        (inputs : list (Input * Player)) (s : State) :
  errorCellOk s = true ->
  let s' := fst (session inputs s) in
  errorCellOk s' = true /\
  errorOverlay (render s') = (if isLoading s' then None else error s') /\
  (loadingOverlay (render s') = true -> errorOverlay (render s') = None).
Proof.
  intros Hok s'.
  assert (Hok' : errorCellOk s' = true).
  { subst s'. revert s Hok. induction inputs as [|[i p] rest IH]; intros s Hok.
    - exact Hok.
    - rewrite session_cons. simpl. apply IH.
      destruct (react_step i p s) as (_ & _ & Herr & _). apply Herr, Hok. }
  split; [exact Hok'|]. unfold errorCellOk in Hok'. unfold render. simpl.
  destruct (error s') as [msg|]; destruct (isLoading s'); simpl;
    try rewrite Hok'; simpl; split; auto; discriminate.
Qed.

Lemma X11_witness :
  errorOverlay (render (fst (session [(LoadError "boom", healthy)] Sample.card)))
    = Some "Failed to load video. boom".
Proof.
  destruct (X11_error_overlay_shows_the_stored_error
              [(LoadError "boom", healthy)] Sample.card) as (_ & Hshow & _);
    [reflexivity|].
  rewrite Hshow. reflexivity.
Defined.

(** X16.  As long as the card is not handed another feed item, the author
    name and handle it shows stay those it started with, whatever is
    pressed, selected or reported in between. *)
Theorem X16_author_survives_a_session (inputs : list (Input * Player)) (s : State) :
  Forall (fun ip => changesItem (fst ip) = false) inputs ->
  authorNameText (render (fst (session inputs s))) = authorName (currentVideo s) /\
  authorHandleText (render (fst (session inputs s))) = authorHandle (currentVideo s).
Proof.
  intros Hall. revert s. induction Hall as [|[i p] rest Hi _ IH]; intros s.
  - split; reflexivity.
  - rewrite session_cons. simpl fst.
    destruct (react_step i p s) as (_ & _ & _ & Hauthor & _).
    destruct (Hauthor Hi) as [Hn Hh].
    destruct (IH (stateAfter (react i) p s)) as [Hn' Hh'].
    split; congruence.
Qed.

Lemma X16_witness :
  authorNameText
    (render (fst (session [(ThumbnailPress true Sample.similar, healthy);
                           (Press, broken "busy");
                           (ThumbnailPress false Sample2.noThumbnail, broken "busy")]
                          Sample.card))) = JStr "Ann".
Proof.
  apply (X16_author_survives_a_session
           [(ThumbnailPress true Sample.similar, healthy);
            (Press, broken "busy");
            (ThumbnailPress false Sample2.noThumbnail, broken "busy")] Sample.card).
  repeat constructor.
Defined.

End CardExtras.

Section CardStepExtras.

Import VideoFeedItem.
Import Card.

(** X12.  What the overlays show after each report of the player: a load
    error shows its message and no spinner; a load start or the
    selection of a similar video shows the spinner and no error; a loaded
    status shows neither. *)
Theorem X12_overlays_after_player_reports
        (e : string) (a : bool) (sel : SimilarVideoData) (p : Player) (s : State) :
  (loadingOverlay (render (stateAfter (onError e) p s)) = false /\
   errorOverlay (render (stateAfter (onError e) p s))
     = Some ("Failed to load video. " ++ e)) /\
  (loadingOverlay (render (stateAfter onLoadStart p s)) = true /\
   errorOverlay (render (stateAfter onLoadStart p s)) = None) /\
  (loadingOverlay (render (stateAfter (handleSimilarVideoSelect a sel) p s)) = true /\
   errorOverlay (render (stateAfter (handleSimilarVideoSelect a sel) p s)) = None) /\
  (loadingOverlay
     (render (stateAfter (onPlaybackStatusUpdate {| isLoaded := true; status_error := None |})
                         p s)) = false /\
   errorOverlay
     (render (stateAfter (onPlaybackStatusUpdate {| isLoaded := true; status_error := None |})
                         p s)) = None).
Proof.
  destruct s as [ref playing loading err cur]. unfold render. run.
  split; [split; reflexivity|]. split; [split; reflexivity|].
  split; [|split; reflexivity].
  destruct ref as [h|]; simpl; outcomes p; destruct err; simpl;
    rewrite ?andb_false_r; split; reflexivity.
Qed.

(** X13.  The state a selection of a similar video leaves the card in
    depends neither on the player nor on an earlier selection: the last
    selection wins, and selecting the same video twice is selecting it
    once. *)
Theorem X13_last_similar_selection_wins
        (a1 a2 a3 : bool) (v1 v2 : SimilarVideoData) (p1 p2 p3 : Player) (s : State) :
  stateAfter (handleSimilarVideoSelect a2 v2) p2
             (stateAfter (handleSimilarVideoSelect a1 v1) p1 s)
  = stateAfter (handleSimilarVideoSelect a3 v2) p3 s.
Proof.
  destruct s as [ref playing loading err cur]. run.
  destruct ref as [h|]; simpl; outcomes p1; outcomes p2; outcomes p3; reflexivity.
Qed.

(** X14.  When the unload of a selection is rejected, the handler throws
    the rejection without issuing a load, yet the card has already
    switched to the selected video and shows the spinner; when the unload
    succeeds and the load is rejected, both calls were made and the handler
    throws the load's rejection. *)
Theorem X14_failed_similar_selection
        (a : bool) (sel : SimilarVideoData) (p : Player) (s : State) (h : nat) (e : string) :
  videoRef s = Some h ->
  (p unloadAsync = Rejected e ->
   completionOf (handleSimilarVideoSelect a sel) p s = Throw e /\
   traceOf (handleSimilarVideoSelect a sel) p s
     = [ConsoleLog ["Switching to: " ++ title sel]; VideoCall h unloadAsync] /\
   id (currentVideo (stateAfter (handleSimilarVideoSelect a sel) p s)) = JStr (sim_id sel) /\
   isLoading (stateAfter (handleSimilarVideoSelect a sel) p s) = true /\
   isPlaying (stateAfter (handleSimilarVideoSelect a sel) p s) = isPlaying s) /\
  (p unloadAsync = Fulfilled ->
   p (loadAsync (JStr (media_url sel)) (a && isPlaying s)) = Rejected e ->
   completionOf (handleSimilarVideoSelect a sel) p s = Throw e /\
   traceOf (handleSimilarVideoSelect a sel) p s
     = [ConsoleLog ["Switching to: " ++ title sel]; VideoCall h unloadAsync;
        VideoCall h (loadAsync (JStr (media_url sel)) (a && isPlaying s))]).
Proof.
  intros Href. destruct s as [ref playing loading err cur]. run. subst ref. simpl.
  split.
  - intros ->. simpl. repeat split; reflexivity.
  - intros -> Hload. simpl. rewrite Hload. split; reflexivity.
Qed.

Lemma X14_witness :
  completionOf (handleSimilarVideoSelect true Sample.similar) (broken "gone") Sample.playingCard
    = Throw "gone" /\
  id (currentVideo (stateAfter (handleSimilarVideoSelect true Sample.similar)
                               (broken "gone") Sample.playingCard)) = JStr "sim1".
Proof.
  destruct (proj1 (X14_failed_similar_selection true Sample.similar (broken "gone")
                     Sample.playingCard 7 "gone" eq_refl) eq_refl)
    as (Hthrow & _ & Hid & _).
  split; [exact Hthrow | exact Hid].
Defined.

(** X15.  After a thumbnail is pressed the card is given a poster exactly
    when that thumbnail showed an image, and then it is that image; its
    caption is the thumbnail's title. *)
Theorem X15_poster_matches_the_pressed_thumbnail
        (a : bool) (sel : SimilarVideoData) (p : Player) (s : State) :
  let s' := stateAfter (react (ThumbnailPress a sel)) p s in
  poster (render s') =
    match SimilarVideoThumbnail.thumb (SimilarVideoThumbnail.render sel) with
    | SimilarVideoThumbnail.Image uri => Some (JStr uri)
    | SimilarVideoThumbnail.Placeholder _ => None
    end /\
  captionText (render s') = JStr (SimilarVideoThumbnail.titleText
                                    (SimilarVideoThumbnail.render sel)).
Proof.
  destruct s as [ref playing loading err cur]. destruct sel as [sid url thumbnail ttl].
  unfold react, SimilarVideoThumbnail.onPress, render, SimilarVideoThumbnail.render. run.
  destruct ref as [h|]; destruct thumbnail as [uri|]; simpl; outcomes p;
    split; reflexivity.
Qed.

(** X17.  When a commit hands the card a different feed item, the card
    shows that item with the spinner on; an error stored before is kept
    but not shown. *)
Theorem X17_new_item_resets_the_card (prev next : Render) (p : Player) (s : State) :
  HomeScreen.initialVideoData (props prev) <> HomeScreen.initialVideoData (props next) ->
  let s' := stateAfter (update prev next) p s in
  currentVideo s' = HomeScreen.initialVideoData (props next) /\
  isLoading s' = true /\ error s' = error s /\
  errorOverlay (render s') = None.
Proof.
  intros Hdiff s'. subst s'. unfold render.
  pose proof (depsChanged_true _ _ Hdiff) as Hchanged.
  destruct s as [ref playing loading err cur]. run. rewrite Hchanged. simpl.
  destruct ref as [h|]; simpl; outcomes p; destruct err; simpl;
    rewrite ?andb_false_r; repeat split; reflexivity.
Qed.

Lemma X17_witness :
  currentVideo (stateAfter (update Sample.sawActive
                                   (mkRender (HomeScreen.mkProps Sample.video2 true) (Some 7)))
                           healthy Sample.playingCard) = Sample.video2.
Proof.
  apply (X17_new_item_resets_the_card Sample.sawActive
           (mkRender (HomeScreen.mkProps Sample.video2 true) (Some 7))
           healthy Sample.playingCard).
  vm_compute. discriminate.
Defined.

(** X18.  A commit in which neither the feed item, nor [isActive], nor
    the handle seen by the render differs from the previous one runs no
    effect: no call, no log, no state change.  A commit in which only the
    handle seen by the render differs plays or pauses the card according
    to [isActive]. *)
Theorem X18_commit_without_change_is_silent
        (prev next : Render) (p : Player) (s : State) (h : nat) :
  HomeScreen.initialVideoData (props prev) = HomeScreen.initialVideoData (props next) ->
  HomeScreen.isActive (props prev) = HomeScreen.isActive (props next) ->
  (seenRef prev = seenRef next -> update prev next p s = (Normal tt, s, [])) /\
  (seenRef prev <> seenRef next -> videoRef s = Some h ->
   traceOf (update prev next) p s
     = (VideoCall h (activeCmd (HomeScreen.isActive (props next))) ::
        match p (activeCmd (HomeScreen.isActive (props next))) with
        | Fulfilled => []
        | Rejected e =>
            [ConsoleError [activeLabel (HomeScreen.isActive (props next)); e]]
        end)).
Proof.
  intros Hdata Hactive. unfold update. rewrite Hdata, Hactive, depsChanged_false.
  split.
  - intros ->. rewrite depsChanged_false. reflexivity.
  - intros Hseen Href. rewrite depsChanged_true by congruence.
    unfold traceOf, mbind, M_bind, useEffect, mret, M_ret.
    rewrite (activeEffect_mounted _ p s h Href).
    destruct (p (activeCmd _)); reflexivity.
Qed.

Lemma X18_witness :
  update Sample.sawActive Sample.sawActive (broken "x") Sample.playingCard
    = (Normal tt, Sample.playingCard, []) /\
  traceOf (update (mkRender Sample.active None) Sample.sawActive) healthy Sample.card
    = [VideoCall 7 playAsync].
Proof.
  split.
  - apply (X18_commit_without_change_is_silent Sample.sawActive Sample.sawActive
             (broken "x") Sample.playingCard 7); reflexivity.
  - apply (proj2 (X18_commit_without_change_is_silent (mkRender Sample.active None)
                    Sample.sawActive healthy Sample.card 7 eq_refl eq_refl));
      [discriminate | reflexivity].
Defined.

(** X19.  After its first commit a card shows the feed item it was given
    with the spinner on and no error, and counts as playing exactly when
    it is active and the play call was fulfilled. *)
Theorem X19_first_commit (props : HomeScreen.VideoFeedItemProps) (h : nat) (p : Player) :
  let s' := stateAfter (mount props) p (initialState props h) in
  currentVideo s' = HomeScreen.initialVideoData props /\
  isLoading s' = true /\ error s' = None /\ videoRef s' = Some h /\
  isPlaying s' =
    match p (activeCmd (HomeScreen.isActive props)) with
    | Fulfilled => HomeScreen.isActive props
    | Rejected _ => false
    end /\
  VideoCall h (activeCmd (HomeScreen.isActive props))
    ∈ traceOf (mount props) p (initialState props h).
Proof.
  destruct props as [data a]. unfold mount, initialState. run.
  destruct a; simpl; outcomes p; repeat split; try reflexivity;
    repeat (try (left; fail); right).
Qed.

End CardStepExtras.

(** * Further properties of the drawer *)

Section DrawerExtras.

Import DrawerContent.

(** X20.  The drawer can be swiped open exactly on routes whose fourth
    segment is 'grok'; in particular never on a route with fewer than four
    segments. *)
Theorem X20_swipe_only_on_grok (pathname : list string) :
  (DrawerLayout.swipeEnabled pathname = true <-> pathname !! 3 = Some "grok") /\
  (length pathname < 4 -> DrawerLayout.swipeEnabled pathname = false).
Proof.
  assert (Hiff : DrawerLayout.swipeEnabled pathname = true <-> pathname !! 3 = Some "grok").
  { unfold DrawerLayout.swipeEnabled, DrawerLayout.fourthSegment,
      DrawerLayout.includes, DrawerLayout.allowedDrawerRoutes.
    destruct (pathname !! 3) as [seg|]; simpl; [|split; discriminate].
    destruct (String.eqb seg "") eqn:Hempty; simpl.
    - apply String.eqb_eq in Hempty as ->. split; discriminate.
    - rewrite orb_false_r. rewrite String.eqb_sym. split.
      + intros H. apply String.eqb_eq in H as ->. reflexivity.
      + intros [= ->]. reflexivity. }
  split; [exact Hiff|]. intros Hlen.
  destruct (DrawerLayout.swipeEnabled pathname); [|reflexivity].
  destruct Hiff as [Hgrok _]. specialize (Hgrok eq_refl).
  apply lookup_lt_Some in Hgrok. lia.
Qed.

Lemma X20_witness : DrawerLayout.swipeEnabled ["(drawer)"; "(tabs)"; "grok"] = false.
Proof.
  apply (X20_swipe_only_on_grok ["(drawer)"; "(tabs)"; "grok"]). simpl. lia.
Defined.

(** *** Rows by position *)

Lemma filterFrom_spec (p : JsObject -> bool) (users : list JsObject) (k i : nat) :
  i ∈ filterFrom p users k <->
  exists u, k <= i /\ users !! (i - k) = Some u /\ p u = true.
Proof.
  revert k. induction users as [|u0 rest IH]; intros k; simpl.
  - split; [intros H; inversion H | intros (u & _ & H & _); discriminate].
  - assert (Hrest : i ∈ filterFrom p rest (S k) <->
                    exists u, S k <= i /\ (u0 :: rest) !! (i - k) = Some u /\ p u = true).
    { rewrite IH. split; intros (u & Hle & Hu & Hp); exists u; (split; [lia|]);
        (split; [|exact Hp]).
      - replace (i - k) with (S (i - S k)) by lia. exact Hu.
      - replace (i - k) with (S (i - S k)) in Hu by lia. exact Hu. }
    destruct (p u0) eqn:Hp0.
    + rewrite elem_of_cons, Hrest. split.
      * intros [-> | (u & Hle & Hu & Hp)].
        -- exists u0. rewrite Nat.sub_diag. auto.
        -- exists u. split; [lia | auto].
      * intros (u & Hle & Hu & Hp).
        destruct (decide (i = k)) as [-> | Hne]; [left; reflexivity|].
        right. exists u. split; [lia | auto].
    + rewrite Hrest. split.
      * intros (u & Hle & Hu & Hp). exists u. split; [lia | auto].
      * intros (u & Hle & Hu & Hp).
        destruct (decide (i = k)) as [-> | Hne].
        -- rewrite Nat.sub_diag in Hu. simpl in Hu. congruence.
        -- exists u. split; [lia | auto].
Qed.

Lemma filterFrom_lower (p : JsObject -> bool) (users : list JsObject) (k : nat) :
  Forall (fun i => k <= i) (filterFrom p users k).
Proof.
  apply Forall_forall. intros i Hi. apply filterFrom_spec in Hi as (u & Hle & _). exact Hle.
Qed.

Lemma filterFrom_increasing (p : JsObject -> bool) (users : list JsObject)
      (k a b x y : nat) :
  a < b ->
  filterFrom p users k !! a = Some x ->
  filterFrom p users k !! b = Some y ->
  x < y.
Proof.
  revert k a b. induction users as [|u0 rest IH]; intros k a b Hab; simpl;
    [discriminate|].
  destruct (p u0); [|apply IH; exact Hab].
  destruct b as [|b]; [lia|]. destruct a as [|a]; simpl.
  - intros [= <-] Hy.
    pose proof (filterFrom_lower p rest (S k)) as Hlow.
    rewrite Forall_forall in Hlow.
    specialize (Hlow y (list_elem_of_lookup_2 _ _ _ Hy)). lia.
  - apply IH. lia.
Qed.

(** The first kept row is the row [find] returns. *)
Lemma filterFrom_head (p : JsObject -> bool) (users : list JsObject) (k : nat) :
  head (filterFrom p users k) = findFrom p users k.
Proof.
  revert k. induction users as [|u0 rest IH]; intros k; simpl; [reflexivity|].
  destruct (p u0); [reflexivity | apply IH].
Qed.

Lemma findFrom_spec (p : JsObject -> bool) (users : list JsObject) (k j : nat) :
  findFrom p users k = Some j <->
  k <= j /\ (exists u, users !! (j - k) = Some u /\ p u = true) /\
  (forall i u, i < j - k -> users !! i = Some u -> p u = false).
Proof.
  revert k. induction users as [|u0 rest IH]; intros k; simpl.
  - split; [discriminate | intros (_ & (u & H & _) & _); discriminate].
  - destruct (p u0) eqn:Hp0.
    + split.
      * intros [= <-]. rewrite Nat.sub_diag. split; [lia|].
        split; [exists u0; auto | intros i u Hi; lia].
      * intros (Hle & (u & Hu & Hp) & Hbefore).
        destruct (decide (j = k)) as [-> | Hne]; [reflexivity|].
        specialize (Hbefore 0 u0 ltac:(lia) eq_refl). congruence.
    + rewrite IH. split.
      * intros (Hle & (u & Hu & Hp) & Hbefore). split; [lia|]. split.
        -- exists u. replace (j - k) with (S (j - S k)) by lia. auto.
        -- intros [|i] u' Hi Hu'; [simpl in Hu'; congruence|].
           apply (Hbefore i u'); [lia | exact Hu'].
      * intros (Hle & (u & Hu & Hp) & Hbefore).
        assert (j <> k).
        { intros ->. rewrite Nat.sub_diag in Hu. simpl in Hu. congruence. }
        split; [lia|]. split.
        -- exists u. replace (j - k) with (S (j - S k)) in Hu by lia. auto.
        -- intros i u' Hi Hu'. apply (Hbefore (S i) u'); [lia | exact Hu'].
Qed.

Lemma findFrom_exists (p : JsObject -> bool) (users : list JsObject) (i : nat) (u : JsObject) :
  users !! i = Some u -> p u = true ->
  exists j u', findFrom p users 0 = Some j /\ j <= i /\ users !! j = Some u' /\ p u' = true.
Proof.
  intros Hu Hp. destruct (findFrom p users 0) as [j|] eqn:Hfind.
  - pose proof Hfind as Hspec. apply findFrom_spec in Hspec as (_ & (u' & Hu' & Hp') & Hbefore).
    rewrite Nat.sub_0_r in *. exists j, u'. split; [reflexivity|]. split; [|auto].
    destruct (decide (j <= i)) as [|Hgt]; [assumption|].
    specialize (Hbefore i u ltac:(lia) Hu). congruence.
  - exfalso. revert Hfind. generalize 0. revert i Hu.
    induction users as [|u0 rest IH]; intros i Hu k; simpl; [discriminate|].
    destruct i as [|i]; simpl in Hu.
    + injection Hu as ->. rewrite Hp. discriminate.
    + destruct (p u0); [discriminate | apply (IH i Hu)].
Qed.

End DrawerExtras.

Section DrawerFlow.

Import DrawerContent.

Variable users : list JsObject.

Lemma includes_elem_of (accounts : list JsVal) (x : JsVal) :
  includes accounts x = true <-> x ∈ accounts.
Proof.
  unfold includes. rewrite existsb_exists. split.
  - intros (a & Hin & Heq). apply strict_eq_true in Heq as ->.
    apply list_elem_of_In, Hin.
  - intros Hin. exists x. split; [apply list_elem_of_In, Hin | apply strict_eq_true; reflexivity].
Qed.

Lemma updateEffects_same (s : State) : updateEffects users s s = [].
Proof. unfold updateEffects. rewrite !bool_decide_eq_true_2; reflexivity. Qed.

Lemma settle_same (n : nat) (s : State) : settle n users s s = s.
Proof. induction n as [|n IH]; simpl; [reflexivity|]. rewrite updateEffects_same. exact IH. Qed.

(** Once a commit changes nothing, no later commit does. *)
Lemma settle_fixed (n : nat) (prev cur : State) :
  commit (updateEffects users prev cur) cur = cur -> settle n users prev cur = cur.
Proof. destruct n as [|n]; simpl; [reflexivity|]. intros ->. apply settle_same. Qed.

(** No commit after the first replaces the array of authorized users. *)
Lemma update_keeps_array (prev cur : State) :
  authorizedUsers (commit (updateEffects users prev cur) cur) = authorizedUsers cur.
Proof.
  unfold updateEffects, currentUserEffect, defaultAccountEffect, commit.
  destruct (bool_decide _); destruct (bool_decide _); simpl;
    repeat (case_match; simpl); reflexivity.
Qed.

Lemma settle_keeps_array (n : nat) (prev cur : State) :
  authorizedUsers (settle n users prev cur) = authorizedUsers cur.
Proof.
  revert prev cur. induction n as [|n IH]; intros prev cur; simpl; [reflexivity|].
  rewrite IH. apply update_keeps_array.
Qed.

(** X21.  From its first commit on, the account list of the drawer holds
    exactly the users of the fixture whose id is among the authorized
    accounts, each once and in the fixture's order, whatever id is
    stored. *)
Theorem X21_account_list_is_the_authorized_users
        (authorizedAccounts : list JsVal) (storedId : JsVal) (n : nat) :
  exists rows,
    authorizedUsers (mounted users authorizedAccounts storedId n) = FilteredArray rows /\
    (forall i, i ∈ rows <->
               exists u, users !! i = Some u /\ get u "id" ∈ authorizedAccounts) /\
    (forall a b x y, a < b -> rows !! a = Some x -> rows !! b = Some y -> x < y).
Proof.
  exists (authorizedRows users authorizedAccounts). split; [|split].
  - unfold mounted. rewrite settle_keeps_array.
    unfold mountEffects, authorizedEffect, currentUserEffect, defaultAccountEffect,
      commit, initialState. simpl.
    destruct (truthy storedId); simpl; [|reflexivity].
    destruct (findFrom _ users 0); reflexivity.
  - intros i. unfold authorizedRows. rewrite filterFrom_spec. rewrite Nat.sub_0_r.
    split.
    + intros (u & _ & Hu & Hp). exists u. split; [exact Hu | apply includes_elem_of, Hp].
    + intros (u & Hu & Hp). exists u. split; [lia|]. split; [exact Hu|].
      apply includes_elem_of, Hp.
  - intros a b x y. apply filterFrom_increasing.
Qed.

(** The first authorized row is found again by its own id. *)
Lemma first_authorized_found_by_id (authorizedAccounts : list JsVal)
      (first : nat) (rest : list nat) :
  authorizedRows users authorizedAccounts = first :: rest ->
  findFrom (fun user => strict_eq (get user "id") (get (row users first) "id")) users 0
    = Some first.
Proof.
  intros Hrows.
  assert (Hfind : findFrom (fun user => includes authorizedAccounts (get user "id")) users 0
                  = Some first).
  { rewrite <- filterFrom_head. unfold authorizedRows in Hrows. rewrite Hrows. reflexivity. }
  apply findFrom_spec in Hfind as (_ & (u & Hu & Hp) & Hbefore).
  rewrite Nat.sub_0_r in *.
  assert (Hrow : row users first = u) by (unfold row; rewrite Hu; reflexivity).
  apply findFrom_spec. rewrite Nat.sub_0_r, Hrow. split; [lia|]. split.
  - exists u. split; [exact Hu | apply strict_eq_true; reflexivity].
  - intros i u' Hi Hu'. destruct (strict_eq (get u' "id") (get u "id")) eqn:Heq; [|reflexivity].
    apply strict_eq_true in Heq. specialize (Hbefore i u' Hi Hu').
    rewrite Heq in Hbefore. congruence.
Qed.

(** X22.  Two commits after the mounting one the drawer has settled, and
    stays so: the user the stored id finds is current (authorized or not)
    and the stored id is kept; failing that, the first authorized user is
    current and its id is stored; failing that too, nobody is current, the
    stored id is kept and the header shows 'Twitter User'. *)
Theorem X22_drawer_settles_on_an_account
        (authorizedAccounts : list JsVal) (storedId : JsVal) (n : nat) :
  2 <= n ->
  let s := mounted users authorizedAccounts storedId n in
  match storedUser users storedId, authorizedRows users authorizedAccounts with
  | Some i, _ => currentUser s = Some i /\ currentUserId s = storedId
  | None, first :: _ =>
      currentUser s = Some first /\ currentUserId s = get (row users first) "id"
  | None, [] =>
      currentUser s = None /\ currentUserId s = storedId /\
      userName users s = JStr "Twitter User"
  end.
Proof.
  intros Hn s. subst s. destruct n as [|[|n]]; [lia | lia |]. clear Hn.
  unfold mounted.
  set (s0 := initialState storedId).
  set (s1 := commit (mountEffects users authorizedAccounts s0) s0).
  assert (Hs1 : s1 = mkState storedId (storedUser users storedId)
                             (FilteredArray (authorizedRows users authorizedAccounts))).
  { subst s1 s0. unfold mountEffects, authorizedEffect, currentUserEffect,
      defaultAccountEffect, commit, initialState, storedUser, authorizedRows. simpl.
    destruct (truthy storedId); simpl; [|reflexivity].
    destruct (findFrom _ users 0); reflexivity. }
  simpl settle.
  set (s2 := commit (updateEffects users s0 s1) s1).
  assert (Hs2 : s2 = match storedUser users storedId,
                           authorizedRows users authorizedAccounts with
                     | None, first :: _ =>
                         mkState (get (row users first) "id") (Some first)
                                 (FilteredArray (authorizedRows users authorizedAccounts))
                     | _, _ => s1
                     end).
  { subst s2. rewrite Hs1. subst s0. unfold updateEffects, initialState. simpl.
    rewrite bool_decide_eq_true_2 by reflexivity.
    unfold defaultAccountEffect, commit. simpl.
    destruct (storedUser users storedId); [reflexivity|].
    destruct (authorizedRows users authorizedAccounts) eqn:Hrows; reflexivity. }
  assert (Hfix : commit (updateEffects users s1 s2) s2 = s2).
  { rewrite Hs2. destruct (storedUser users storedId) as [i|] eqn:Hstored;
      [rewrite updateEffects_same; reflexivity|].
    destruct (authorizedRows users authorizedAccounts) as [|first rest] eqn:Hrows;
      [rewrite updateEffects_same; reflexivity|].
    rewrite Hs1. unfold updateEffects, currentUserEffect, defaultAccountEffect, commit.
    simpl. rewrite (first_authorized_found_by_id authorizedAccounts first rest Hrows).
    destruct (bool_decide (_ = (_, Some first))); rewrite app_nil_r;
      destruct (bool_decide _); simpl; try reflexivity;
      destruct (truthy _); reflexivity. }
  rewrite Hfix, settle_same, Hs2, Hs1.
  destruct (storedUser users storedId) as [i|]; simpl; [auto|].
  destruct (authorizedRows users authorizedAccounts) as [|first rest]; simpl; auto.
Qed.

(** X23.  Pressing the account row of a user stores that user's id and
    leaves the account list as it is; once the next commit has run, the
    check mark is on the rows with that id, and, if the id is non-empty and
    was not the stored one, the first user of the fixture with that id is
    current; otherwise the current user is unchanged. *)
Theorem X23_selecting_an_account
        (s : State) (i : nat) (u : JsObject) (n : nat) :
  users !! i = Some u ->
  1 <= n ->
  let s' := selected users s i n in
  currentUserId s' = get u "id" /\
  authorizedUsers s' = authorizedUsers s /\
  checkMarks users s' =
    map (fun k => strict_eq (get u "id") (get (row users k) "id"))
        (elements (authorizedUsers s)) /\
  (if truthy (get u "id") && negb (strict_eq (currentUserId s) (get u "id"))
   then exists j, j <= i /\ currentUser s' = Some j /\
                  get (row users j) "id" = get u "id"
   else currentUser s' = currentUser s).
Proof.
  intros Hu Hn s'. subst s'. destruct n as [|n]; [lia|]. clear Hn.
  assert (Hrow : row users i = u) by (unfold row; rewrite Hu; reflexivity).
  set (s1 := mkState (get u "id") (currentUser s) (authorizedUsers s)).
  set (s2 := commit (updateEffects users s s1) s1).
  destruct (findFrom_exists (fun user => strict_eq (get user "id") (get u "id"))
              users i u Hu) as (j & u' & Hfind & Hle & Hu' & Hid);
    [apply strict_eq_true; reflexivity|].
  apply strict_eq_true in Hid.
  assert (Hs2 : s2 = if truthy (get u "id") && negb (strict_eq (currentUserId s) (get u "id"))
                     then mkState (get u "id") (Some j) (authorizedUsers s)
                     else s1).
  { subst s2 s1. unfold updateEffects, currentUserEffect, commit. simpl.
    rewrite (bool_decide_eq_true_2 ((_, _) = (_, _))) by reflexivity. rewrite app_nil_r.
    unfold strict_eq in *. destruct (bool_decide (currentUserId s = get u "id")); simpl;
      [rewrite andb_false_r; reflexivity|].
    rewrite andb_true_r. destruct (truthy (get u "id")); [|reflexivity].
    rewrite Hfind. reflexivity. }
  assert (Hfix : commit (updateEffects users s1 s2) s2 = s2).
  { rewrite Hs2. destruct (truthy (get u "id") && negb _);
      [|rewrite updateEffects_same; reflexivity].
    subst s1. unfold updateEffects, defaultAccountEffect, commit. simpl.
    rewrite (bool_decide_eq_true_2 (get u "id" = _)) by reflexivity.
    destruct (bool_decide _); reflexivity. }
  assert (Hsel : selected users s i (S n) = s2).
  { unfold selected. rewrite Hrow. apply (settle_fixed n s1 s2 Hfix). }
  rewrite Hsel, Hs2.
  destruct (truthy (get u "id") && negb _); simpl.
  - do 3 (split; [reflexivity|]).
    exists j. split; [exact Hle|]. split; [reflexivity|].
    unfold row. rewrite Hu'. exact Hid.
  - do 3 (split; [reflexivity|]). reflexivity.
Qed.

End DrawerFlow.

Section DrawerWitnesses.

Import DrawerContent.

Lemma X22_witness :
  currentUser (mounted Sample2.users Sample2.authorizedAccounts (JStr "9") 4) = Some 1 /\
  currentUserId (mounted Sample2.users Sample2.authorizedAccounts (JStr "9") 4) = JStr "2".
Proof.
  apply (X22_drawer_settles_on_an_account Sample2.users Sample2.authorizedAccounts
           (JStr "9") 4).
  lia.
Defined.

Lemma X23_witness :
  currentUserId
    (selected Sample2.users
              (mounted Sample2.users Sample2.authorizedAccounts JNull 2) 2 1) = JStr "3" /\
  checkMarks Sample2.users
    (selected Sample2.users
              (mounted Sample2.users Sample2.authorizedAccounts JNull 2) 2 1)
    = [false; true].
Proof.
  destruct (X23_selecting_an_account Sample2.users
              (mounted Sample2.users Sample2.authorizedAccounts JNull 2) 2 Sample2.cy 1)
    as (Hid & _ & Hmarks & _); [reflexivity | lia |].
  split; [exact Hid | rewrite Hmarks; reflexivity].
Defined.

End DrawerWitnesses.

(** * The feed and its cards together *)

Section FeedAndCards.

Import VideoFeedItem.

(** X24.  When the list reports a row other than the active one as its
    first viewable token, the commit that follows pauses the card that was
    active and plays the card of the reported row, each on its own handle
    (logging the call's rejection, if any), and loads or unloads
    nothing. *)
Theorem X24_moving_the_active_card
        (data : list VideoPlayerData) (i : nat) (rest : list HomeScreen.ViewToken)
        (st : HomeScreen.State) (v w : VideoPlayerData) (hv hw : nat)
        (p : Player) (sv sw : State) :
  data !! i = Some w ->
  HomeScreen.activeVideoId st = id v ->
  id w <> id v ->
  videoRef sv = Some hv ->
  videoRef sw = Some hw ->
  let st' := HomeScreen.onViewableItemsChanged (HomeScreen.tokenOf data i true :: rest) st in
  let commitOf item h :=
    update (mkRender (HomeScreen.renderVideoItem st item) (Some h))
           (mkRender (HomeScreen.renderVideoItem st' item) (Some h)) in
  traceOf (commitOf v hv) p sv =
    (VideoCall hv pauseAsync ::
     match p pauseAsync with
     | Fulfilled => []
     | Rejected e => [ConsoleError ["Error pausing video on inactive: "; e]]
     end) /\
  traceOf (commitOf w hw) p sw =
    (VideoCall hw playAsync ::
     match p playAsync with
     | Fulfilled => []
     | Rejected e => [ConsoleError ["Error playing video on active: "; e]]
     end).
Proof.
  intros Hw Hactive Hneq Hrefv Hrefw st' commitOf. subst st' commitOf.
  unfold HomeScreen.onViewableItemsChanged, HomeScreen.tokenOf. cbn -[update].
  rewrite Hw.
  unfold update, HomeScreen.renderVideoItem. simpl. rewrite Hactive.
  rewrite !depsChanged_false.
  assert (Hvv : strict_eq (id v) (id v) = true) by (apply strict_eq_true; reflexivity).
  assert (Hww : strict_eq (id w) (id w) = true) by (apply strict_eq_true; reflexivity).
  assert (Hvw : strict_eq (id v) (id w) = false).
  { destruct (strict_eq (id v) (id w)) eqn:He; [|reflexivity].
    apply strict_eq_true in He. congruence. }
  assert (Hwv : strict_eq (id w) (id v) = false).
  { destruct (strict_eq (id w) (id v)) eqn:He; [|reflexivity].
    apply strict_eq_true in He. congruence. }
  rewrite Hvv, Hww, Hvw, Hwv.
  rewrite !depsChanged_true by discriminate.
  unfold traceOf, mbind, M_bind, useEffect, mret, M_ret.
  rewrite (activeEffect_mounted false p sv hv Hrefv).
  rewrite (activeEffect_mounted true p sw hw Hrefw).
  unfold activeCmd, activeLabel.
  destruct (p pauseAsync); destruct (p playAsync); split; reflexivity.
Qed.

Lemma X24_witness :
  traceOf (update (mkRender (HomeScreen.renderVideoItem
                               {| HomeScreen.activeVideoId := JStr "c1" |} Sample.video1)
                            (Some 7))
                  (mkRender (HomeScreen.renderVideoItem
                               (HomeScreen.onViewableItemsChanged
                                  [HomeScreen.tokenOf Sample2.feed 1 true]
                                  {| HomeScreen.activeVideoId := JStr "c1" |})
                               Sample.video1)
                            (Some 7)))
          healthy Sample.playingCard
    = [VideoCall 7 pauseAsync].
Proof.
  apply (X24_moving_the_active_card Sample2.feed 1 []
           {| HomeScreen.activeVideoId := JStr "c1" |} Sample.video1 Sample.video2 7 8
           healthy Sample.playingCard
           (mkState (Some 8) false true None Sample.video2));
    try reflexivity.
  vm_compute. discriminate.
Defined.

End FeedAndCards.
